(** * GGRC core: calendar event builder, CSV converters, REST client, label migration

    A shallow embedding of
    - [src/ggrc/gcalendar/calendar_event_builder.py],
    - [src/ggrc/converters/base.py],
    - [test/selenium/src/lib/rest/api_client.py],
    - [src/ggrc_workflows_new/migrations/versions/..._create_label_table.py]
    together with the properties their specification states about them. *)

From Stdlib Require Import ZArith Lia Ascii String.
From stdpp Require Import gmap strings list fin_maps sorting pretty.

Set Warnings "-clear-no-such-hyp".

Local Open Scope string_scope.
Local Open Scope list_scope.

(** ** Python results: a value or a raised exception *)

Module Py.

Inductive exn : Type :=
  | ValueError
  | KeyError
  | IndexError
  | OperationalError.

Inductive result (A : Type) : Type :=
  | Ok (a : A)
  | Raise (e : exn).
Arguments Ok {A} a.
Arguments Raise {A} e.

#[global] Instance exn_eq_dec : EqDecision exn.
Proof. solve_decision. Defined.

#[global] Instance result_ret : MRet result := fun A a => Ok a.

#[global] Instance result_bind : MBind result := fun A B k r =>
  match r with
  | Ok a => k a
  | Raise e => Raise e
  end.

(** [try: c except e: h] *)
Definition try_except {A} (c : result A) (e : exn) (h : result A) : result A :=
  match c with
  | Ok a => Ok a
  | Raise e' => if decide (e' = e) then h else Raise e'
  end.

End Py.

(** ** ggrc.gcalendar.calendar_event_builder *)

Module Calendar.

(** The workflow of a cycle task; only [workflow_archived] is read. *)
Record Workflow := { workflow_archived : bool }.

(** all_models.CycleTaskGroupObjectTask, with the attributes and properties
    the builder reads.  The status constants are attributes of the task
    object itself ([task.DEPRECATED], ...); [get_person_ids_for_rolename] is
    the method of the same name. *)
Record Task := {
  id : nat;
  end_date : Z;
  status : string;
  title : string;
  DEPRECATED : string;
  VERIFIED : string;
  FINISHED : string;
  is_verification_needed : bool;
  is_in_history : bool;
  is_overdue : bool;
  workflow : Workflow;
  get_person_ids_for_rolename : string -> list nat;
}.

(** all_models.CalendarEvent; [ev_id] is the primary key given at flush. *)
Record CalendarEvent := {
  ev_id : nat;
  due_date : Z;
  attendee_id : nat;
  ev_title : string;
  modified_by_id : nat;
}.

(** all_models.Relationship, a polymorphic link between two rows. *)
Record Relationship := {
  source_type : string;
  source_id : nat;
  destination_type : string;
  destination_id : nat;
}.

#[global] Instance CalendarEvent_eq_dec : EqDecision CalendarEvent.
Proof. solve_decision. Defined.

#[global] Instance Relationship_eq_dec : EqDecision Relationship.
Proof. solve_decision. Defined.

(** db.session: the event rows, the relationship rows and the next
    AUTO_INCREMENT key of the calendar_events table. *)
Record Session := {
  events : list CalendarEvent;
  relationships : list Relationship;
  next_event_id : nat;
}.

(** The builder object.  [task_mappings] and [event_mappings] are
    [defaultdict(set)]. *)
Record Builder := {
  task_mappings : gmap nat (gset nat);
  event_mappings : gmap nat (gset nat);
  title_prefix : string;
  db : Session;
}.

(** *** defaultdict(set) *)

(** [d[k]] read on a defaultdict(set): a missing key reads as [set()]. *)
Definition dd_get (d : gmap nat (gset nat)) (k : nat) : gset nat :=
  default ∅ (d !! k).

(** [d[k].add(v)]; a missing key is created. *)
Definition dd_add (k v : nat) (d : gmap nat (gset nat)) : gmap nat (gset nat) :=
  <[k := dd_get d k ∪ {[v]}]> d.

(** [d[k].discard(v)]; a missing key is created (with the empty set). *)
Definition dd_discard (k v : nat) (d : gmap nat (gset nat)) : gmap nat (gset nat) :=
  <[k := dd_get d k ∖ {[v]}]> d.

(** *** _should_create_event_for *)

(** Python's [any] over a list of booleans. *)
Definition any (conditions : list bool) : bool :=
  existsb (fun c => c) conditions.

(** [_should_create_event_for]: [not any(conditions)]. *)
Definition _should_create_event_for (task : Task) : bool :=
  let conditions := [
    bool_decide (status task ∈ [DEPRECATED task; VERIFIED task]);
    bool_decide (status task = FINISHED task) && negb (is_verification_needed task);
    is_in_history task;
    is_overdue task;
    workflow_archived (workflow task)
  ] in
  negb (any conditions).

(** *** _get_task_persons_ids_to_notify *)

Definition roles_to_notify : list string :=
  ["Task Assignees"; "Task Secondary Assignees"].

(** [_get_task_persons_ids_to_notify]: the set of the person ids of both
    roles. *)
Definition _get_task_persons_ids_to_notify (task : Task) : gset nat :=
  let person_ids :=
    foldl (fun acc role => acc ++ get_person_ids_for_rolename task role)
          [] roles_to_notify in
  list_to_set person_ids.

(** *** ggrc.gcalendar.utils and db.session *)

Definition TASK_MODEL : string := "CycleTaskGroupObjectTask".
Definition EVENT_MODEL : string := "CalendarEvent".

(** The row links the left object and the right object, in either
    direction. *)
Definition links (left_id : nat) (left_model_name : string)
    (right_id : nat) (right_model_name : string) (r : Relationship) : bool :=
  (bool_decide (source_type r = left_model_name)
   && bool_decide (source_id r = left_id)
   && bool_decide (destination_type r = right_model_name)
   && bool_decide (destination_id r = right_id))
  || (bool_decide (source_type r = right_model_name)
      && bool_decide (source_id r = right_id)
      && bool_decide (destination_type r = left_model_name)
      && bool_decide (destination_id r = left_id)).

(** Modelled from the spec: utils.get_relationship is not under src/.  It is
    the query for a relationship record between the two objects: the first
    row of the relationships table that links them, [None] when there is
    none. *)
Definition get_relationship (s : Session) (left_id : nat)
    (left_model_name : string) (right_id : nat) (right_model_name : string)
    : option Relationship :=
  List.find (links left_id left_model_name right_id right_model_name)
            (relationships s).

(** Modelled from the spec: utils.get_event_by_date_and_attendee is not under
    src/.  It is the query for a calendar event of that attendee due on that
    date: the first such row, [None] when no event exists for that attendee
    and due date. *)
Definition get_event_by_date_and_attendee (s : Session) (attendee : nat)
    (due : Z) : option CalendarEvent :=
  List.find (fun e => bool_decide (due_date e = due)
                      && bool_decide (attendee_id e = attendee))
            (events s).

(** [db.session.add(relationship)] *)
Definition session_add_relationship (r : Relationship) (s : Session) : Session :=
  {| events := events s;
     relationships := relationships s ++ [r];
     next_event_id := next_event_id s |}.

(** [db.session.add(event)] followed by the flush that gives the row its
    primary key; [mk] builds the row from the key. *)
Definition session_add_event (mk : nat -> CalendarEvent) (s : Session)
    : CalendarEvent * Session :=
  let event := mk (next_event_id s) in
  (event,
   {| events := events s ++ [event];
      relationships := relationships s;
      next_event_id := S (next_event_id s) |}).

Fixpoint remove_row (r : Relationship) (rows : list Relationship)
    : list Relationship :=
  match rows with
  | [] => []
  | x :: rows' => if decide (x = r) then rows' else x :: remove_row r rows'
  end.

(** [db.session.delete(relationship)]: the row is removed. *)
Definition session_delete_relationship (r : Relationship) (s : Session) : Session :=
  {| events := events s;
     relationships := remove_row r (relationships s);
     next_event_id := next_event_id s |}.

(** [all_models.Relationship(source=task, destination=event)] *)
Definition Relationship_of (task : Task) (event : CalendarEvent) : Relationship :=
  {| source_type := TASK_MODEL;
     source_id := id task;
     destination_type := EVENT_MODEL;
     destination_id := ev_id event |}.

Definition set_db (s : Session) (b : Builder) : Builder :=
  {| task_mappings := task_mappings b;
     event_mappings := event_mappings b;
     title_prefix := title_prefix b;
     db := s |}.

Definition set_mappings (tm em : gmap nat (gset nat)) (b : Builder) : Builder :=
  {| task_mappings := tm;
     event_mappings := em;
     title_prefix := title_prefix b;
     db := db b |}.

(** *** The builder's operations *)

Definition TASK_TITLE_TEMPLATE (prefix : string) : string :=
  String.append prefix "Your tasks are due today".

(** [CalendarEventBuilder.__init__]; [notification_prefix] is
    [settings.NOTIFICATION_PREFIX]. *)
Definition CalendarEventBuilder_init (notification_prefix : string)
    (s : Session) : Builder :=
  {| task_mappings := ∅;
     event_mappings := ∅;
     title_prefix :=
       if decide (notification_prefix = "") then ""
       else String.append "[" (String.append notification_prefix "] ");
     db := s |}.

(** [_delete_event_relationship] *)
Definition _delete_event_relationship (event_id task_id : nat) (b : Builder)
    : Builder :=
  match get_relationship (db b) event_id EVENT_MODEL task_id TASK_MODEL with
  | Some relationship =>
      let b := set_db (session_delete_relationship relationship (db b)) b in
      let b := set_mappings (dd_discard task_id event_id (task_mappings b))
                            (event_mappings b) b in
      set_mappings (task_mappings b)
                   (dd_discard event_id task_id (event_mappings b)) b
  | None => b
  end.

(** [_create_event_with_relationship]: the event made and the builder
    after it. *)
Definition _create_event_with_relationship (task : Task) (person_id : nat)
    (b : Builder) : CalendarEvent * Builder :=
  let mk := fun key =>
    {| ev_id := key;
       due_date := end_date task;
       attendee_id := person_id;
       ev_title := TASK_TITLE_TEMPLATE (title_prefix b);
       modified_by_id := person_id |} in
  let '(event, s) := session_add_event mk (db b) in
  let s := session_add_relationship (Relationship_of task event) s in
  let b := set_db s b in
  let b := set_mappings (dd_add (id task) (ev_id event) (task_mappings b))
                        (event_mappings b) b in
  let b := set_mappings (task_mappings b)
                        (dd_add (ev_id event) (id task) (event_mappings b)) b in
  (event, b).

(** [_create_event_relationship] *)
Definition _create_event_relationship (task : Task) (event : CalendarEvent)
    (b : Builder) : Builder :=
  match get_relationship (db b) (ev_id event) EVENT_MODEL (id task) TASK_MODEL with
  | None =>
      let b := set_db (session_add_relationship (Relationship_of task event) (db b)) b in
      let b := set_mappings (dd_add (id task) (ev_id event) (task_mappings b))
                            (event_mappings b) b in
      set_mappings (task_mappings b)
                   (dd_add (ev_id event) (id task) (event_mappings b)) b
  | Some _ => b
  end.

(** One turn of the loop over the persons to notify: the builder and the
    local set [events_ids]. *)
Definition notify_person (task : Task) (acc : Builder * gset nat)
    (person_id : nat) : Builder * gset nat :=
  let '(b, events_ids) := acc in
  match get_event_by_date_and_attendee (db b) person_id (end_date task) with
  | None => (snd (_create_event_with_relationship task person_id b), events_ids)
  | Some event =>
      (_create_event_relationship task event b, events_ids ∖ {[ev_id event]})
  end.

(** [_generate_events_for_task]; [elements] gives the order in which a set
    is gone through. *)
Definition _generate_events_for_task (task : Task) (b : Builder) : Builder :=
  let events_ids : gset nat :=
    if decide (is_Some (task_mappings b !! id task))
    then dd_get (task_mappings b) (id task)
    else ∅ in
  let '(b, events_ids) :=
    if _should_create_event_for task
    then foldl (notify_person task) (b, events_ids)
               (elements (_get_task_persons_ids_to_notify task))
    else (b, events_ids) in
  foldl (fun b event_id => _delete_event_relationship event_id (id task) b)
        b (elements events_ids).

(** [_generate_events]: every task in turn (the final flush changes no row
    here, keys are given when rows are added). *)
Definition _generate_events (tasks : list Task) (b : Builder) : Builder :=
  foldl (fun b task => _generate_events_for_task task b) b tasks.

(** *** Sequences of the three relationship operations *)

Inductive Op : Type :=
  | CreateEventWithRelationship (task : Task) (person_id : nat)
  | CreateEventRelationship (task : Task) (event : CalendarEvent)
  | DeleteEventRelationship (event_id task_id : nat).

Definition run_op (b : Builder) (op : Op) : Builder :=
  match op with
  | CreateEventWithRelationship task person_id =>
      snd (_create_event_with_relationship task person_id b)
  | CreateEventRelationship task event => _create_event_relationship task event b
  | DeleteEventRelationship event_id task_id =>
      _delete_event_relationship event_id task_id b
  end.

Definition run_ops (ops : list Op) (b : Builder) : Builder :=
  foldl run_op b ops.

(** The two tables are inverse to each other. *)
Definition mutually_inverse (b : Builder) : Prop :=
  forall task_id event_id : nat,
    event_id ∈ dd_get (task_mappings b) task_id
    <-> task_id ∈ dd_get (event_mappings b) event_id.

(** *** What the specification of [_generate_events_for_task] speaks of *)

(** The number of relationship rows between an event and a task. *)
Definition link_count (s : Session) (event_id task_id : nat) : nat :=
  length (List.filter (links event_id EVENT_MODEL task_id TASK_MODEL)
                      (relationships s)).

(** The events found for the persons [ps] of a task in the database [s]:
    the events the pass re-confirms. *)
Definition reconfirmed (s : Session) (task : Task) (ps : list nat) : list nat :=
  omap (fun person_id =>
          ev_id <$> get_event_by_date_and_attendee s person_id (end_date task))
       ps.

(** The events whose relationship to the task the pass is to delete: those
    mapped before it and not re-confirmed (none is re-confirmed for a task
    that is not eligible). *)
Definition to_delete (task : Task) (b : Builder) : gset nat :=
  dd_get (task_mappings b) (id task)
  ∖ (if _should_create_event_for task
     then list_to_set (reconfirmed (db b) task
                         (elements (_get_task_persons_ids_to_notify task)))
     else ∅).

(** A task, an empty database and a short run of operations. *)
Definition sample_task : Task :=
  {| id := 1; end_date := 20180301; status := "In Progress";
     title := "Review controls";
     DEPRECATED := "Deprecated"; VERIFIED := "Verified"; FINISHED := "Finished";
     is_verification_needed := true; is_in_history := false;
     is_overdue := false; workflow := {| workflow_archived := false |};
     get_person_ids_for_rolename := fun role =>
       if decide (role = "Task Assignees") then [7; 8]
       else if decide (role = "Task Secondary Assignees") then [8; 9]
       else [] |}.

Definition empty_session : Session :=
  {| events := []; relationships := []; next_event_id := 1 |}.

(** A database with two events mapped to the sample task: event 1 is that
    of assignee 7 on the task's due date, event 2 that of person 99, who is
    no assignee. *)
Definition sample_session : Session :=
  {| events :=
       [{| ev_id := 1; due_date := 20180301; attendee_id := 7;
           ev_title := "Your tasks are due today"; modified_by_id := 7 |};
        {| ev_id := 2; due_date := 20180301; attendee_id := 99;
           ev_title := "Your tasks are due today"; modified_by_id := 99 |}];
     relationships :=
       [{| source_type := TASK_MODEL; source_id := 1;
           destination_type := EVENT_MODEL; destination_id := 1 |};
        {| source_type := EVENT_MODEL; source_id := 2;
           destination_type := TASK_MODEL; destination_id := 1 |}];
     next_event_id := 3 |}.

Definition sample_builder : Builder :=
  {| task_mappings := {[1 := {[1; 2]}]};
     event_mappings := {[1 := {[1]}; 2 := {[1]}]};
     title_prefix := "";
     db := sample_session |}.

End Calendar.

(** ** ggrc.converters.base *)

Module Converters.
Import Py.

(** *** Python byte strings: [str.strip] and [str.lower] *)

(** The whitespace of [str.strip()]: tab, newline, vertical tab, form feed,
    carriage return and space. *)
Definition is_space (a : ascii) : bool :=
  let n := nat_of_ascii a in
  ((9 <=? n)%nat && (n <=? 13)%nat) || (n =? 32)%nat.

Fixpoint lstrip (s : string) : string :=
  match s with
  | EmptyString => EmptyString
  | String a s' => if is_space a then lstrip s' else s
  end.

Fixpoint string_rev_onto (s acc : string) : string :=
  match s with
  | EmptyString => acc
  | String a s' => string_rev_onto s' (String a acc)
  end.

Definition string_rev (s : string) : string := string_rev_onto s EmptyString.

Definition rstrip (s : string) : string := string_rev (lstrip (string_rev s)).

Definition strip (s : string) : string := rstrip (lstrip s).

Definition lower_ascii (a : ascii) : ascii :=
  let n := nat_of_ascii a in
  if ((65 <=? n)%nat && (n <=? 90)%nat)%bool then ascii_of_nat (n + 32) else a.

Fixpoint lower (s : string) : string :=
  match s with
  | EmptyString => EmptyString
  | String a s' => String (lower_ascii a) (lower s')
  end.

(** *** Object classes and the registry of exportables *)

(** A model class, known by its [__name__]. *)
Record ObjectClass := { cls_name : string }.

#[global] Instance ObjectClass_eq_dec : EqDecision ObjectClass.
Proof. solve_decision. Defined.

(** The [fields] of an object query: the string ["all"] or a list of field
    names. *)
Inductive Fields : Type :=
  | AllFields
  | FieldList (names : list string).

(** One object query of [ids_by_type], a dict with the keys ["object_name"],
    ["ids"] and ["fields"]; [None] is a missing key. *)
Record ObjectQuery := {
  object_name : option string;
  ids : option (list nat);
  fields : option Fields;
}.

(** What the exporter reads of a block converter: [name], [block_width] and
    the two generators.  [generate_csv_header] gives the two header rows. *)
Record BlockConverter := {
  name : string;
  block_width : nat;
  generate_csv_header : list string * list string;
  generate_row_data : list (list string);
}.

(** *** CsvStringBuilder *)

Record CsvStringBuilder := {
  table_width : nat;
  csv_lines_acc : list (list string);
}.

(** A line padded with empty cells up to [width] cells. *)
Definition pad (width : nat) (line : list string) : list string :=
  line ++ replicate (width - length line) "".

Definition CsvStringBuilder_init (width : nat) : CsvStringBuilder :=
  {| table_width := width; csv_lines_acc := [] |}.

(** Modelled from the spec: CsvStringBuilder (ggrc.converters.import_helper)
    is not under src/.  Every line appended is padded to the table width the
    builder was made with. *)
Definition append_line (line : list string) (sb : CsvStringBuilder)
    : CsvStringBuilder :=
  {| table_width := table_width sb;
     csv_lines_acc := csv_lines_acc sb ++ [pad (table_width sb) line] |}.

(** *** ExportConverter *)

Record ExportConverter := {
  exportable : gmap string ObjectClass;
  block_converters : list BlockConverter;
  ids_by_type : list ObjectQuery;
  exportable_queries : list Z;
}.

(** [ExportConverter.__init__]; [exportables] is [get_exportables()] and
    [queries] the optional argument [exportable_queries=None]. *)
Definition ExportConverter_init (exportables : gmap string ObjectClass)
    (ids : list ObjectQuery) (queries : option (list Z)) : ExportConverter :=
  {| exportable := exportables;
     block_converters := [];
     ids_by_type := ids;
     exportable_queries := default [] queries |}.

(** [enumerate(l)], counting from [start]. *)
Fixpoint enumerate_from {A} (start : nat) (l : list A) : list (nat * A) :=
  match l with
  | [] => []
  | x :: l' => (start, x) :: enumerate_from (S start) l'
  end.

Definition enumerate {A} (l : list A) : list (nat * A) := enumerate_from 0 l.

(** [ExportConverter._get_exportable_queries] *)
Definition _get_exportable_queries (c : ExportConverter) : list ObjectQuery :=
  match exportable_queries c with
  | _ :: _ =>
      omap (fun '(index, object_query) =>
              if decide (Z.of_nat index ∈ exportable_queries c)
              then Some object_query else None)
           (enumerate (ids_by_type c))
  | [] => ids_by_type c
  end.

(** The positions of [l] that occur in the index list, in increasing order:
    the reading of "the elements whose positions occur in
    exportable_queries, in their original order". *)
Definition selected_positions (n : nat) (indexes : list Z) : list nat :=
  List.filter (fun i => bool_decide (Z.of_nat i ∈ indexes)) (seq 0 n).

(** [max(l)]: ValueError on the empty list. *)
Definition py_max (l : list nat) : result nat :=
  match l with
  | [] => Raise ValueError
  | x :: l' => Ok (foldl Nat.max x l')
  end.

Section ExportConverterSection.

(** The constructors of the two kinds of export block converter
    (ggrc.converters.base_block and snapshot_block) and the csv writer behind
    [CsvStringBuilder.get_csv_string] are not under src/: parameters. *)
Variable ExportBlockConverter :
  ObjectClass -> Fields -> list nat -> string -> BlockConverter.
Variable SnapshotBlockConverter : list nat -> Fields -> BlockConverter.
Variable get_csv_string : CsvStringBuilder -> string.

(** One turn of the loop of [initialize_block_converters]. *)
Definition initialize_block (object_map : gmap string ObjectClass)
    (c : ExportConverter) (object_data : ObjectQuery) : result ExportConverter :=
  class_name ← from_option Ok (Raise KeyError) (object_name object_data);
  object_class ← from_option Ok (Raise KeyError) (object_map !! class_name);
  let object_ids := default [] (ids object_data) in
  let fields := default AllFields (fields object_data) in
  let block_converter :=
    if decide (class_name = "Snapshot")
    then SnapshotBlockConverter object_ids fields
    else ExportBlockConverter object_class fields object_ids class_name in
  Ok {| exportable := exportable c;
        block_converters := block_converters c ++ [block_converter];
        ids_by_type := ids_by_type c;
        exportable_queries := exportable_queries c |}.

(** [ExportConverter.initialize_block_converters]: the converter with its
    block converters appended, or the KeyError of a lookup. *)
Definition initialize_block_converters (c : ExportConverter)
    : result ExportConverter :=
  let object_map : gmap string ObjectClass :=
    list_to_map (reverse ((fun o => (cls_name o, o)) <$>
                          (snd <$> map_to_list (exportable c)))) in
  let exportable_queries := _get_exportable_queries c in
  foldl (fun r object_data => c ← r; initialize_block object_map c object_data)
        (Ok c) exportable_queries.

(** The lines one block converter appends. *)
Definition append_block (sb : CsvStringBuilder) (block_converter : BlockConverter)
    : CsvStringBuilder :=
  let csv_header := generate_csv_header block_converter in
  let csv_header_0 := "Object type" :: fst csv_header in
  let csv_header_1 := name block_converter :: snd csv_header in
  let sb := append_line csv_header_0 sb in
  let sb := append_line csv_header_1 sb in
  let sb := foldl (fun sb line => append_line ("" :: line) sb)
                  sb (generate_row_data block_converter) in
  let sb := append_line [] sb in
  append_line [] sb.

(** [ExportConverter.build_csv_from_row_data] *)
Definition build_csv_from_row_data (c : ExportConverter) : result string :=
  table_width ← py_max (block_width <$> block_converters c);
  let table_width := table_width + 1 in
  let csv_string_builder := CsvStringBuilder_init table_width in
  let csv_string_builder :=
    foldl append_block csv_string_builder (block_converters c) in
  Ok (get_csv_string csv_string_builder).

(** [ExportConverter.export_csv_data]: the csv string and the converter
    after the call. *)
Definition export_csv_data (c : ExportConverter)
    : result (string * ExportConverter) :=
  c ← initialize_block_converters c;
  csv ← try_except (build_csv_from_row_data c) ValueError (Ok "");
  Ok (csv, c).

End ExportConverterSection.

(** *** ImportConverter *)

Section ImportConverterSection.

(** The entries of [csv_lines] that [split_blocks] gives per block. *)
Variable CsvLine : Type.

(** base_block.ImportBlockConverter, by the arguments it is made from;
    [ignore] is the flag [import_csv_data] reads. *)
Record ImportBlockConverter := {
  object_class : option ObjectClass;
  rows : list (list string);
  raw_headers : list string;
  offset : nat;
  class_name : string;
  csv_lines : list CsvLine;
  ignore : bool;
}.

(** [split_blocks], [extract_relevant_data] (ggrc.converters.import_helper)
    and [ImportBlockConverter.check_block_restrictions] are not under src/:
    parameters. *)
Variable split_blocks :
  list (list string) -> list (nat * list (list string) * list CsvLine).
Variable extract_relevant_data :
  list (list string) -> list string * list (list string).
Variable check_block_restrictions : ImportBlockConverter -> ImportBlockConverter.

Record ImportConverter := {
  import_exportable : gmap string ObjectClass;
  dry_run : bool;
  csv_data : list (list string);
}.

(** The body of the loop of [initialize_block_converters] for one block:
    the block converter it yields, or the exception of [data[1][0]]. *)
Definition initialize_import_block (c : ImportConverter)
    (block : nat * list (list string) * list CsvLine)
    : result ImportBlockConverter :=
  let '(offset, data, csv_lines) := block in
  cell ← from_option Ok (Raise IndexError) (data !! 1%nat ≫= (.!! 0%nat));
  let class_name := lower (strip cell) in
  let object_class := import_exportable c !! class_name in
  let '(raw_headers, rows) := extract_relevant_data data in
  let block_converter :=
    {| object_class := object_class;
       rows := rows;
       raw_headers := raw_headers;
       offset := offset;
       class_name := class_name;
       csv_lines := drop 2 csv_lines;
       ignore := false |} in
  Ok (check_block_restrictions block_converter).

(** A generator run to its end: what it yielded, and the exception that
    ended it, if one did. *)
Fixpoint yield_blocks (c : ImportConverter)
    (blocks : list (nat * list (list string) * list CsvLine))
    : list ImportBlockConverter * option exn :=
  match blocks with
  | [] => ([], None)
  | block :: blocks' =>
      match initialize_import_block c block with
      | Raise e => ([], Some e)
      | Ok block_converter =>
          let '(yielded, raised) := yield_blocks c blocks' in
          (block_converter :: yielded, raised)
      end
  end.

(** [ImportConverter.initialize_block_converters], run to its end. *)
Definition import_initialize_block_converters (c : ImportConverter)
    : list ImportBlockConverter * option exn :=
  yield_blocks c (split_blocks (csv_data c)).

(** [check_block_restrictions] leaves the arguments the block converter was
    made from as they are. *)
Definition keeps_block_arguments : Prop :=
  forall bc : ImportBlockConverter,
    object_class (check_block_restrictions bc) = object_class bc
    /\ rows (check_block_restrictions bc) = rows bc
    /\ raw_headers (check_block_restrictions bc) = raw_headers bc
    /\ offset (check_block_restrictions bc) = offset bc
    /\ class_name (check_block_restrictions bc) = class_name bc
    /\ csv_lines (check_block_restrictions bc) = csv_lines bc.

(** Every block has a second line, and that line a first cell. *)
Definition blocks_have_object_line
    (blocks : list (nat * list (list string) * list CsvLine)) : Prop :=
  Forall (fun block => is_Some (block.1.2 !! 1%nat ≫= (.!! 0%nat))) blocks.

End ImportConverterSection.

Arguments object_class {CsvLine} _.
Arguments rows {CsvLine} _.
Arguments raw_headers {CsvLine} _.
Arguments offset {CsvLine} _.
Arguments class_name {CsvLine} _.
Arguments csv_lines {CsvLine} _.
Arguments ignore {CsvLine} _.
Arguments Build_ImportBlockConverter {CsvLine} _ _ _ _ _ _ _.
Arguments initialize_import_block {CsvLine} _ _ _ _.
Arguments yield_blocks {CsvLine} _ _ _ _.
Arguments import_initialize_block_converters {CsvLine} _ _ _ _.
Arguments keeps_block_arguments {CsvLine} _.
Arguments blocks_have_object_line {CsvLine} _.

(** The block layout of an export, in the words of the specification: per
    block a line starting with "Object type", a line starting with the
    block's name, one line per data row with an empty first cell, and two
    empty lines; every line padded to [width]. *)
Definition block_layout (width : nat) (bc : BlockConverter) : list (list string) :=
  [pad width ("Object type" :: fst (generate_csv_header bc));
   pad width (name bc :: snd (generate_csv_header bc))]
  ++ ((fun line => pad width ("" :: line)) <$> generate_row_data bc)
  ++ [replicate width ""; replicate width ""].

Definition export_layout (width : nat) (bcs : list BlockConverter)
    : list (list string) :=
  concat (block_layout width <$> bcs).

(** The largest block width, 0 for no block. *)
Definition max_block_width (bcs : list BlockConverter) : nat :=
  foldr Nat.max 0 (block_width <$> bcs).

(** *** Sample data *)

(** A csv writer for examples: cells joined by commas, lines by
    semicolons. *)
Definition sample_csv_string (sb : CsvStringBuilder) : string :=
  String.concat ";" (String.concat "," <$> csv_lines_acc sb).

Definition sample_block (object_class : ObjectClass) (fields : Fields)
    (object_ids : list nat) (class_name : string) : BlockConverter :=
  {| name := class_name;
     block_width := 2;
     generate_csv_header := (["Code*"; "Title*"], ["slug"; "title"]);
     generate_row_data :=
       (fun i => [String.append "P-" (pretty i); "row"]) <$> object_ids |}.

Definition sample_snapshot_block (object_ids : list nat) (fields : Fields)
    : BlockConverter :=
  {| name := "Snapshot";
     block_width := 1;
     generate_csv_header := (["Code*"], ["slug"]);
     generate_row_data := (fun i => [pretty i]) <$> object_ids |}.

Definition sample_exportables : gmap string ObjectClass :=
  {[ "program" := {| cls_name := "Program" |};
     "snapshot" := {| cls_name := "Snapshot" |} ]}.

Definition sample_queries : list ObjectQuery :=
  [{| object_name := Some "Program"; ids := Some [1; 2]; fields := None |};
   {| object_name := Some "Snapshot"; ids := Some [5]; fields := None |}].

(** A stand-in for [split_blocks]: the whole file as one block at offset 0,
    with the numbers of its lines. *)
Definition sample_split_blocks (csv : list (list string))
    : list (nat * list (list string) * list nat) :=
  [(0, csv, seq 1 (length csv))].

(** A stand-in for [extract_relevant_data]: the second line without its
    first cell as headers, the lines after it without theirs as rows. *)
Definition sample_extract_relevant_data (data : list (list string))
    : list string * list (list string) :=
  (drop 1 (default [] (data !! 1)), drop 1 <$> drop 2 data).

Definition sample_import (object_line_cell : string) : ImportConverter :=
  {| import_exportable := sample_exportables;
     dry_run := true;
     csv_data :=
       [["Object type"; ""; ""];
        [object_line_cell; "Code*"; "Title*"];
        [""; "P-1"; "First"];
        [""; "P-2"; "Second"]] |}.

End Converters.

(** ** test/selenium/src/lib/rest/api_client *)

Module ApiClient.

Section Client.

(** JSON bodies, header dicts, responses, users and [requests] sessions. *)
Variables Json Headers Response User HttpSession : Type.

(** [urlparse.urljoin], [environment.app_url], [users.current_user()] and
    [session_pool.get_session]. *)
Variable urljoin : string -> string -> string.
Variable app_url : string.
Variable current_user : User.
Variable get_session : User -> HttpSession.

Inductive Method : Type := GET | POST | PUT.

(** One HTTP request sent on a session. *)
Record Request := {
  req_session : HttpSession;
  req_method : Method;
  req_url : string;
  req_json : option Json;
  req_headers : option Headers;
}.

(** The server's answer to a request, given the requests sent before. *)
Variable respond : list Request -> Request -> Response.

(** The state of the world: the requests sent so far. *)
Definition World : Type := list Request.

Definition send (r : Request) (w : World) : Response * World :=
  (respond w r, w ++ [r]).

(** [session.get(url)], [session.post(url, json=...)] and
    [session.put(url, json=..., headers=...)]. *)
Definition session_get (s : HttpSession) (url : string) : World -> Response * World :=
  send {| req_session := s; req_method := GET; req_url := url;
          req_json := None; req_headers := None |}.

Definition session_post (s : HttpSession) (url : string) (json : Json)
    : World -> Response * World :=
  send {| req_session := s; req_method := POST; req_url := url;
          req_json := Some json; req_headers := None |}.

Definition session_put (s : HttpSession) (url : string) (json : Json)
    (headers : Headers) : World -> Response * World :=
  send {| req_session := s; req_method := PUT; req_url := url;
          req_json := Some json; req_headers := Some headers |}.

Definition _user_session : HttpSession := get_session current_user.

Definition send_get (url : string) : World -> Response * World :=
  let url := urljoin app_url url in
  session_get _user_session url.

Definition send_post (url : string) (json_body : Json) : World -> Response * World :=
  let url := urljoin app_url url in
  session_post _user_session url json_body.

Definition send_put (url : string) (json_body : Json) (headers : Headers)
    : World -> Response * World :=
  let url := urljoin app_url url in
  session_put _user_session url json_body headers.

(** C6: each of [send_get], [send_post] and [send_put] sends one request on
    the session of the current user, with its method, the url joined to
    [environment.app_url], the given JSON body (POST, PUT) and the given
    headers (PUT), and returns the response to that request as it is. *)
Theorem send_spec (url : string) (json_body : Json) (headers : Headers)
    (w : World) :
  send_get url w
  = (respond w {| req_session := get_session current_user;
                  req_method := GET;
                  req_url := urljoin app_url url;
                  req_json := None;
                  req_headers := None |},
     w ++ [{| req_session := get_session current_user;
              req_method := GET;
              req_url := urljoin app_url url;
              req_json := None;
              req_headers := None |}])
  /\ send_post url json_body w
     = (respond w {| req_session := get_session current_user;
                     req_method := POST;
                     req_url := urljoin app_url url;
                     req_json := Some json_body;
                     req_headers := None |},
        w ++ [{| req_session := get_session current_user;
                 req_method := POST;
                 req_url := urljoin app_url url;
                 req_json := Some json_body;
                 req_headers := None |}])
  /\ send_put url json_body headers w
     = (respond w {| req_session := get_session current_user;
                     req_method := PUT;
                     req_url := urljoin app_url url;
                     req_json := Some json_body;
                     req_headers := Some headers |},
        w ++ [{| req_session := get_session current_user;
                 req_method := PUT;
                 req_url := urljoin app_url url;
                 req_json := Some json_body;
                 req_headers := Some headers |}]).
Proof. repeat split. Qed.

End Client.

End ApiClient.

(** ** ggrc_workflows_new migration 4c290531e2cd: create the labels table *)

Module Migration.
Import Py.

Inductive ColumnType : Type :=
  | SaString (length : nat)
  | SaInteger
  | SaDateTime.

(** [sa.Column(name, type, nullable=..., primary_key=...)]. *)
Record Column := {
  col_name : string;
  col_type : ColumnType;
  nullable : bool;
  primary_key : bool;
}.

(** [sa.ForeignKeyConstraint(columns, refcolumns, name)]. *)
Record ForeignKeyConstraint := {
  fk_columns : list string;
  fk_refcolumns : list string;
  fk_name : string;
}.

Record Index := {
  ix_name : string;
  ix_columns : list string;
}.

Record Table := {
  columns : list Column;
  foreign_keys : list ForeignKeyConstraint;
  indexes : list Index;
}.

#[global] Instance ColumnType_eq_dec : EqDecision ColumnType.
Proof. solve_decision. Defined.
#[global] Instance Column_eq_dec : EqDecision Column.
Proof. solve_decision. Defined.
#[global] Instance ForeignKeyConstraint_eq_dec : EqDecision ForeignKeyConstraint.
Proof. solve_decision. Defined.
#[global] Instance Index_eq_dec : EqDecision Index.
Proof. solve_decision. Defined.
#[global] Instance Table_eq_dec : EqDecision Table.
Proof. solve_decision. Defined.

(** The schema is the tables of the database by name: [gmap string Table]. *)

(** [sa.Column]'s defaults: a column is nullable unless it is a primary
    key. *)
Definition sa_Column (name : string) (type : ColumnType)
    (nullable : option bool) (primary_key : bool) : Column :=
  {| col_name := name;
     col_type := type;
     nullable := default (negb primary_key) nullable;
     primary_key := primary_key |}.

(** [op.create_table]: an error when the table exists. *)
Definition create_table (table_name : string) (cols : list Column)
    (fks : list ForeignKeyConstraint) (s : gmap string Table) : result (gmap string Table) :=
  match s !! table_name with
  | Some _ => Raise OperationalError
  | None =>
      Ok (<[table_name := {| columns := cols; foreign_keys := fks; indexes := [] |}]> s)
  end.

(** [op.create_index]: an error when the table is missing, an index of that
    name exists on it or a column is not one of the table. *)
Definition create_index (index_name table_name : string) (cols : list string)
    (s : gmap string Table) : result (gmap string Table) :=
  match s !! table_name with
  | None => Raise OperationalError
  | Some t =>
      if bool_decide (index_name ∈ ix_name <$> indexes t)
         || negb (bool_decide (cols ⊆ col_name <$> columns t))
      then Raise OperationalError
      else Ok (<[table_name :=
                   {| columns := columns t;
                      foreign_keys := foreign_keys t;
                      indexes := indexes t
                                 ++ [{| ix_name := index_name; ix_columns := cols |}] |}]> s)
  end.

(** [op.drop_table]: an error when the table is missing; the table goes with
    its indexes and constraints. *)
Definition drop_table (table_name : string) (s : gmap string Table) : result (gmap string Table) :=
  match s !! table_name with
  | None => Raise OperationalError
  | Some _ => Ok (delete table_name s)
  end.

Definition TABLE_NAME : string := "labels".

Definition upgrade (s : gmap string Table) : result (gmap string Table) :=
  s ← create_table
        TABLE_NAME
        [sa_Column "title" (SaString 250) (Some false) false;
         sa_Column "modified_by_id" SaInteger None false;
         sa_Column "created_at" SaDateTime (Some false) false;
         sa_Column "updated_at" SaDateTime (Some false) false;
         sa_Column "context_id" SaInteger None false;
         sa_Column "id" SaInteger None true]
        [{| fk_columns := ["context_id"];
            fk_refcolumns := ["contexts.id"];
            fk_name := "fk_label_context_id" |}]
        s;
  s ← create_index (String.append "ix_" (String.append TABLE_NAME "_updated_at"))
                   TABLE_NAME ["updated_at"] s;
  create_index (String.append "fk_" (String.append TABLE_NAME "_contexts"))
               TABLE_NAME ["context_id"] s.

Definition downgrade (s : gmap string Table) : result (gmap string Table) :=
  drop_table TABLE_NAME s.

(** The table the specification describes. *)
Definition labels_table : Table :=
  {| columns :=
       [{| col_name := "title"; col_type := SaString 250;
           nullable := false; primary_key := false |};
        {| col_name := "modified_by_id"; col_type := SaInteger;
           nullable := true; primary_key := false |};
        {| col_name := "created_at"; col_type := SaDateTime;
           nullable := false; primary_key := false |};
        {| col_name := "updated_at"; col_type := SaDateTime;
           nullable := false; primary_key := false |};
        {| col_name := "context_id"; col_type := SaInteger;
           nullable := true; primary_key := false |};
        {| col_name := "id"; col_type := SaInteger;
           nullable := false; primary_key := true |}];
     foreign_keys :=
       [{| fk_columns := ["context_id"];
           fk_refcolumns := ["contexts.id"];
           fk_name := "fk_label_context_id" |}];
     indexes :=
       [{| ix_name := "ix_labels_updated_at"; ix_columns := ["updated_at"] |};
        {| ix_name := "fk_labels_contexts"; ix_columns := ["context_id"] |}] |}.

End Migration.

(** * Properties *)

(** ** The calendar event builder *)

Module CalendarFacts.
Import Calendar.

(** The conditions under which no calendar event is to be created. *)
Definition not_eligible (task : Task) : Prop :=
  (status task = DEPRECATED task \/ status task = VERIFIED task)
  \/ (status task = FINISHED task /\ is_verification_needed task = false)
  \/ is_in_history task = true
  \/ is_overdue task = true
  \/ workflow_archived (workflow task) = true.

Lemma should_create_event_for_false (task : Task) :
  _should_create_event_for task = false <-> not_eligible task.
Proof.
  unfold _should_create_event_for, any, not_eligible. simpl.
  rewrite negb_false_iff, orb_false_r.
  repeat rewrite orb_true_iff.
  rewrite andb_true_iff, negb_true_iff.
  repeat rewrite bool_decide_eq_true.
  rewrite elem_of_cons, list_elem_of_singleton.
  tauto.
Qed.

(** C1: [_should_create_event_for] returns false exactly when the task is
    deprecated or verified, finished without a verification flow, in
    history, overdue, or of an archived workflow; in every other case it
    returns true. *)
Theorem should_create_event_for_spec (task : Task) :
  (_should_create_event_for task = false <-> not_eligible task)
  /\ (_should_create_event_for task = true <-> ~ not_eligible task).
Proof.
  split; [apply should_create_event_for_false |].
  rewrite <- should_create_event_for_false.
  destruct (_should_create_event_for task); split; congruence.
Qed.

(** *** The mapping tables *)

Lemma dd_get_add (d : gmap nat (gset nat)) (k v k' : nat) :
  dd_get (dd_add k v d) k'
  = if decide (k = k') then dd_get d k ∪ {[v]} else dd_get d k'.
Proof.
  unfold dd_add. unfold dd_get at 1.
  rewrite lookup_insert. by destruct (decide (k = k')).
Qed.

Lemma dd_get_discard (d : gmap nat (gset nat)) (k v k' : nat) :
  dd_get (dd_discard k v d) k'
  = if decide (k = k') then dd_get d k ∖ {[v]} else dd_get d k'.
Proof.
  unfold dd_discard. unfold dd_get at 1.
  rewrite lookup_insert. by destruct (decide (k = k')).
Qed.

Lemma dd_get_empty (k : nat) : dd_get ∅ k = ∅.
Proof. unfold dd_get. by rewrite lookup_empty. Qed.

Definition inverse_maps (tm em : gmap nat (gset nat)) : Prop :=
  forall t e : nat, e ∈ dd_get tm t <-> t ∈ dd_get em e.

Lemma inverse_maps_add (tm em : gmap nat (gset nat)) (t e : nat) :
  inverse_maps tm em -> inverse_maps (dd_add t e tm) (dd_add e t em).
Proof.
  intros Hinv t' e'. rewrite !dd_get_add. pose proof (Hinv t' e') as Hte.
  clear Hinv.
  destruct (decide (t = t')) as [->|], (decide (e = e')) as [->|]; set_solver.
Qed.

Lemma inverse_maps_discard (tm em : gmap nat (gset nat)) (t e : nat) :
  inverse_maps tm em -> inverse_maps (dd_discard t e tm) (dd_discard e t em).
Proof.
  intros Hinv t' e'. rewrite !dd_get_discard. pose proof (Hinv t' e') as Hte.
  clear Hinv.
  destruct (decide (t = t')) as [->|], (decide (e = e')) as [->|]; set_solver.
Qed.

Lemma mutually_inverse_init (prefix : string) (s : Session) :
  mutually_inverse (CalendarEventBuilder_init prefix s).
Proof. intros t e. simpl. rewrite !dd_get_empty. set_solver. Qed.

Lemma create_event_with_relationship_inverse (task : Task) (person_id : nat)
    (b : Builder) :
  mutually_inverse b ->
  mutually_inverse (snd (_create_event_with_relationship task person_id b)).
Proof. intros H. unfold mutually_inverse. simpl. by apply inverse_maps_add. Qed.

Lemma create_event_relationship_inverse (task : Task) (event : CalendarEvent)
    (b : Builder) :
  mutually_inverse b -> mutually_inverse (_create_event_relationship task event b).
Proof.
  intros H. unfold _create_event_relationship.
  destruct (get_relationship _ _ _ _ _); [done |].
  unfold mutually_inverse. simpl. by apply inverse_maps_add.
Qed.

Lemma delete_event_relationship_inverse (event_id task_id : nat) (b : Builder) :
  mutually_inverse b -> mutually_inverse (_delete_event_relationship event_id task_id b).
Proof.
  intros H. unfold _delete_event_relationship.
  destruct (get_relationship _ _ _ _ _); [| done].
  unfold mutually_inverse. simpl. by apply inverse_maps_discard.
Qed.

Lemma run_op_inverse (op : Op) (b : Builder) :
  mutually_inverse b -> mutually_inverse (run_op b op).
Proof.
  destruct op; simpl.
  - apply create_event_with_relationship_inverse.
  - apply create_event_relationship_inverse.
  - apply delete_event_relationship_inverse.
Qed.

(** C9: the two mapping tables stay inverse to each other: from any
    builder whose tables are (the new builder's empty tables are), every
    sequence of [_create_event_with_relationship],
    [_create_event_relationship] and [_delete_event_relationship] leaves
    [event_id] in [task_mappings[task_id]] exactly when [task_id] is in
    [event_mappings[event_id]]. *)
Theorem mappings_stay_mutually_inverse (ops : list Op) (b : Builder) :
  mutually_inverse b ->
  forall task_id event_id : nat,
    event_id ∈ dd_get (task_mappings (run_ops ops b)) task_id
    <-> task_id ∈ dd_get (event_mappings (run_ops ops b)) event_id.
Proof.
  revert b. induction ops as [|op ops IH]; intros b H; [exact H |].
  apply (IH (run_op b op)). by apply run_op_inverse.
Qed.

(** *** Relationship rows *)

Lemma model_names_differ : TASK_MODEL <> EVENT_MODEL.
Proof. discriminate. Qed.

Lemma links_true (e t : nat) (r : Relationship) :
  links e EVENT_MODEL t TASK_MODEL r = true <->
  (source_type r = EVENT_MODEL /\ source_id r = e
   /\ destination_type r = TASK_MODEL /\ destination_id r = t)
  \/ (source_type r = TASK_MODEL /\ source_id r = t
      /\ destination_type r = EVENT_MODEL /\ destination_id r = e).
Proof.
  unfold links.
  rewrite orb_true_iff. repeat rewrite andb_true_iff.
  repeat rewrite bool_decide_eq_true. tauto.
Qed.

Lemma links_inj (e e' t t' : nat) (r : Relationship) :
  links e EVENT_MODEL t TASK_MODEL r = true ->
  links e' EVENT_MODEL t' TASK_MODEL r = true ->
  e = e' /\ t = t'.
Proof.
  rewrite !links_true.
  pose proof model_names_differ as Hne.
  intros [(H1 & H2 & H3 & H4)|(H1 & H2 & H3 & H4)]
         [(G1 & G2 & G3 & G4)|(G1 & G2 & G3 & G4)];
    try (split; congruence); exfalso; apply Hne; congruence.
Qed.

Lemma links_Relationship_of (e t : nat) (task : Task) (event : CalendarEvent) :
  links e EVENT_MODEL t TASK_MODEL (Relationship_of task event) = true
  <-> ev_id event = e /\ id task = t.
Proof.
  rewrite links_true. unfold Relationship_of. simpl.
  pose proof model_names_differ as Hne.
  split.
  - intros [(H1 & _)|(_ & H2 & _ & H4)]; [by destruct Hne | done].
  - intros [<- <-]. right. done.
Qed.

Lemma get_relationship_Some (s : Session) (e t : nat) (r : Relationship) :
  get_relationship s e EVENT_MODEL t TASK_MODEL = Some r ->
  r ∈ relationships s /\ links e EVENT_MODEL t TASK_MODEL r = true.
Proof.
  unfold get_relationship. intros H. apply find_some in H as [Hin Hl].
  split; [by apply list_elem_of_In | done].
Qed.

Lemma link_count_pos (s : Session) (e t : nat) :
  is_Some (get_relationship s e EVENT_MODEL t TASK_MODEL)
  <-> 0 < link_count s e t.
Proof.
  unfold get_relationship, link_count.
  induction (relationships s) as [|r rows IH]; simpl.
  - split; [by intros [? ?] | lia].
  - destruct (links e EVENT_MODEL t TASK_MODEL r); simpl.
    + split; [lia | eauto].
    + exact IH.
Qed.

Lemma link_count_zero (s : Session) (e t : nat) :
  get_relationship s e EVENT_MODEL t TASK_MODEL = None -> link_count s e t = 0.
Proof.
  intros H. pose proof (link_count_pos s e t) as [_ Hpos].
  destruct (link_count s e t); [done |].
  destruct Hpos as [r Hr]; [lia | congruence].
Qed.

Lemma filter_remove_row_true (f : Relationship -> bool) (r : Relationship)
    (rows : list Relationship) :
  r ∈ rows -> f r = true ->
  length (List.filter f (remove_row r rows)) = length (List.filter f rows) - 1.
Proof.
  intros Hin Hf. induction rows as [|x rows IH]; [by apply elem_of_nil in Hin |].
  simpl. destruct (decide (x = r)) as [->|Hne].
  - rewrite Hf. simpl. lia.
  - apply elem_of_cons in Hin as [->|Hin]; [done |].
    simpl. destruct (f x); simpl; rewrite (IH Hin); [| done].
    assert (0 < length (List.filter f rows)); [| lia].
    assert (In r (List.filter f rows)) as Hr.
    { apply filter_In. split; [by apply list_elem_of_In | done]. }
    destruct (List.filter f rows); [by destruct Hr | simpl; lia].
Qed.

Lemma filter_remove_row_false (f : Relationship -> bool) (r : Relationship)
    (rows : list Relationship) :
  f r = false ->
  List.filter f (remove_row r rows) = List.filter f rows.
Proof.
  intros Hf. induction rows as [|x rows IH]; [done |].
  simpl. destruct (decide (x = r)) as [->|Hne].
  - by rewrite Hf.
  - simpl. by rewrite IH.
Qed.

Lemma elem_of_remove_row (x r : Relationship) (rows : list Relationship) :
  x ∈ rows -> x <> r -> x ∈ remove_row r rows.
Proof.
  intros Hin Hne. induction rows as [|y rows IH]; [done |].
  simpl. apply elem_of_cons in Hin as [->|Hin].
  - destruct (decide (y = r)); [done | by left].
  - destruct (decide (y = r)); [done | right; by apply IH].
Qed.

Lemma link_count_app (s s' : Session) (added : list Relationship) (e t : nat) :
  relationships s' = relationships s ++ added ->
  link_count s' e t
  = link_count s e t
    + length (List.filter (links e EVENT_MODEL t TASK_MODEL) added).
Proof.
  intros H. unfold link_count. by rewrite H, List.filter_app, length_app.
Qed.

(** *** The loop that deletes relationships *)

Lemma delete_event_relationship_db (d t : nat) (b : Builder) :
  events (db (_delete_event_relationship d t b)) = events (db b)
  /\ next_event_id (db (_delete_event_relationship d t b)) = next_event_id (db b)
  /\ (forall e : nat,
        link_count (db (_delete_event_relationship d t b)) e t
        = if decide (e = d) then link_count (db b) e t - 1
          else link_count (db b) e t)
  /\ (forall r : Relationship,
        r ∈ relationships (db b) ->
        links d EVENT_MODEL t TASK_MODEL r = false ->
        r ∈ relationships (db (_delete_event_relationship d t b))).
Proof.
  unfold _delete_event_relationship.
  destruct (get_relationship (db b) d EVENT_MODEL t TASK_MODEL) as [r0|] eqn:Hget.
  - apply get_relationship_Some in Hget as [Hin Hl]. simpl.
    split; [done |]. split; [done |]. split.
    + intros e. unfold link_count. simpl.
      destruct (decide (e = d)) as [->|Hne].
      * by apply filter_remove_row_true.
      * rewrite filter_remove_row_false; [done |].
        destruct (links e EVENT_MODEL t TASK_MODEL r0) eqn:Hl'; [| done].
        destruct (links_inj _ _ _ _ _ Hl' Hl) as [? _]. done.
    + intros r Hr Hlr. apply elem_of_remove_row; [done |].
      intros ->. congruence.
  - split; [done |]. split; [done |]. split; [| done].
    intros e. destruct (decide (e = d)) as [->|]; [| done].
    rewrite (link_count_zero _ _ _ Hget). done.
Qed.

Lemma delete_loop_db (t : nat) (ds : list nat) (b : Builder) :
  NoDup ds ->
  events (db (foldl (fun b d => _delete_event_relationship d t b) b ds))
  = events (db b)
  /\ (forall e : nat,
        link_count (db (foldl (fun b d => _delete_event_relationship d t b) b ds)) e t
        = if decide (e ∈ ds) then link_count (db b) e t - 1
          else link_count (db b) e t)
  /\ (forall r : Relationship,
        r ∈ relationships (db b) ->
        (forall d : nat, d ∈ ds -> links d EVENT_MODEL t TASK_MODEL r = false) ->
        r ∈ relationships
              (db (foldl (fun b d => _delete_event_relationship d t b) b ds))).
Proof.
  intros Hnd. revert b.
  induction ds as [|d ds IH]; intros b.
  - simpl. split; [done |]. split; [| done].
    intros e. destruct (decide (e ∈ [])) as [Hin|]; [| done].
    by apply elem_of_nil in Hin.
  - apply NoDup_cons in Hnd as [Hd Hnd]. simpl.
    destruct (delete_event_relationship_db d t b) as (He1 & _ & Hc1 & Hr1).
    destruct (IH Hnd (_delete_event_relationship d t b)) as (He2 & Hc2 & Hr2).
    split; [congruence |]. split.
    + intros e. rewrite Hc2, Hc1.
      destruct (decide (e ∈ d :: ds)) as [Hin|Hnin].
      * apply elem_of_cons in Hin as [->|Hin].
        -- destruct (decide (d ∈ ds)); [done |].
           destruct (decide (d = d)); done.
        -- destruct (decide (e ∈ ds)); [| done].
           destruct (decide (e = d)) as [->|]; [done | done].
      * rewrite not_elem_of_cons in Hnin. destruct Hnin as [Hne Hnin].
        destruct (decide (e ∈ ds)); [done |].
        destruct (decide (e = d)); done.
    + intros r Hr Hl. apply Hr2.
      * apply Hr1; [done |]. apply Hl. by left.
      * intros d' Hd'. apply Hl. by right.
Qed.

(** *** The loop over the persons to notify *)

Lemma find_app {A} (f : A -> bool) (l l' : list A) :
  List.find f (l ++ l')
  = match List.find f l with Some x => Some x | None => List.find f l' end.
Proof.
  induction l as [|x l IH]; [done |]. simpl. by destruct (f x).
Qed.

Lemma create_event_with_relationship_db (task : Task) (p : nat) (b : Builder) :
  ev_id (fst (_create_event_with_relationship task p b)) = next_event_id (db b)
  /\ due_date (fst (_create_event_with_relationship task p b)) = end_date task
  /\ attendee_id (fst (_create_event_with_relationship task p b)) = p
  /\ events (db (snd (_create_event_with_relationship task p b)))
     = events (db b) ++ [fst (_create_event_with_relationship task p b)]
  /\ relationships (db (snd (_create_event_with_relationship task p b)))
     = relationships (db b)
       ++ [Relationship_of task (fst (_create_event_with_relationship task p b))]
  /\ next_event_id (db (snd (_create_event_with_relationship task p b)))
     = S (next_event_id (db b)).
Proof. done. Qed.

Lemma get_relationship_app (s s' : Session) (added : list Relationship) (e t : nat) :
  relationships s' = relationships s ++ added ->
  is_Some (get_relationship s e EVENT_MODEL t TASK_MODEL) ->
  is_Some (get_relationship s' e EVENT_MODEL t TASK_MODEL).
Proof.
  intros H. rewrite !link_count_pos, (link_count_app s s' added e t H). lia.
Qed.

Lemma create_event_relationship_db (task : Task) (event : CalendarEvent)
    (b : Builder) :
  events (db (_create_event_relationship task event b)) = events (db b)
  /\ next_event_id (db (_create_event_relationship task event b))
     = next_event_id (db b)
  /\ (exists extra : list Relationship,
        relationships (db (_create_event_relationship task event b))
        = relationships (db b) ++ extra
        /\ (extra = [] \/ extra = [Relationship_of task event]))
  /\ is_Some (get_relationship (db (_create_event_relationship task event b))
                (ev_id event) EVENT_MODEL (id task) TASK_MODEL).
Proof.
  unfold _create_event_relationship.
  destruct (get_relationship (db b) (ev_id event) EVENT_MODEL (id task) TASK_MODEL)
    as [r|] eqn:Hget.
  - split; [done |]. split; [done |]. split.
    + exists []. split; [by rewrite app_nil_r | by left].
    + by rewrite Hget.
  - simpl. split; [done |]. split; [done |]. split.
    + exists [Relationship_of task event]. split; [done | by right].
    + apply link_count_pos.
      rewrite (link_count_app (db b) _ [Relationship_of task event]); [| done].
      simpl.
      assert (links (ev_id event) EVENT_MODEL (id task) TASK_MODEL
                (Relationship_of task event) = true) as ->.
      { by apply links_Relationship_of. }
      simpl. lia.
Qed.

(** [notify_person] with the event looked up in a fixed database [s0]. *)
Definition notify_person_at (s0 : Session) (task : Task)
    (acc : Builder * gset nat) (person_id : nat) : Builder * gset nat :=
  match get_event_by_date_and_attendee s0 person_id (end_date task) with
  | None => (snd (_create_event_with_relationship task person_id acc.1), acc.2)
  | Some event =>
      (_create_event_relationship task event acc.1, acc.2 ∖ {[ev_id event]})
  end.

Lemma notify_person_at_db (task : Task) (acc : Builder * gset nat) (p : nat) :
  notify_person task acc p = notify_person_at (db acc.1) task acc p.
Proof. by destruct acc. Qed.

(** A step for one person leaves the lookups for the other persons as they
    were. *)
Lemma notify_person_at_lookup (s0 : Session) (task : Task)
    (acc : Builder * gset nat) (p q : nat) :
  q <> p ->
  get_event_by_date_and_attendee (db (notify_person_at s0 task acc p).1) q
    (end_date task)
  = get_event_by_date_and_attendee (db acc.1) q (end_date task).
Proof.
  intros Hne. unfold notify_person_at.
  destruct (get_event_by_date_and_attendee s0 p (end_date task)) as [ev|]; simpl.
  - unfold get_event_by_date_and_attendee.
    by destruct (create_event_relationship_db task ev acc.1) as (-> & _).
  - unfold get_event_by_date_and_attendee. simpl.
    rewrite find_app. simpl.
    rewrite (bool_decide_eq_false_2 (p = q)); [| congruence].
    rewrite andb_false_r.
    by destruct (List.find _ (events (db acc.1))).
Qed.

Lemma notify_loop_at_db (task : Task) (ps : list nat) (s0 : Session)
    (acc : Builder * gset nat) :
  NoDup ps ->
  (forall q : nat, q ∈ ps ->
     get_event_by_date_and_attendee (db acc.1) q (end_date task)
     = get_event_by_date_and_attendee s0 q (end_date task)) ->
  foldl (notify_person task) acc ps = foldl (notify_person_at s0 task) acc ps.
Proof.
  intros Hnd. revert acc.
  induction ps as [|p ps IH]; intros acc Hsame; [done |].
  apply NoDup_cons in Hnd as [Hp Hnd]. simpl.
  rewrite notify_person_at_db.
  assert (notify_person_at (db acc.1) task acc p = notify_person_at s0 task acc p)
    as ->.
  { unfold notify_person_at. rewrite Hsame; [done | by left]. }
  apply IH; [done |].
  intros q Hq. rewrite notify_person_at_lookup.
  - apply Hsame. by right.
  - intros ->. done.
Qed.

(** What the loop has done when it ends, in terms of the database [s0] the
    events are looked up in. *)
Definition loop_result (s0 : Session) (task : Task) (ps : list nat)
    (acc res : Builder * gset nat) : Prop :=
  res.2 = acc.2 ∖ list_to_set (reconfirmed s0 task ps)
  /\ exists (created : list CalendarEvent) (added : list Relationship),
       events (db res.1) = events (db acc.1) ++ created
       /\ relationships (db res.1) = relationships (db acc.1) ++ added
       /\ Forall (fun e => due_date e = end_date task
                           /\ attendee_id e ∈ ps
                           /\ next_event_id (db acc.1) <= ev_id e
                           /\ Relationship_of task e ∈ added) created
       /\ Forall (fun r => exists e : CalendarEvent,
                             r = Relationship_of task e
                             /\ (next_event_id (db acc.1) <= ev_id e
                                 \/ ev_id e ∈ reconfirmed s0 task ps)) added
       /\ (forall p : nat, p ∈ ps ->
             match get_event_by_date_and_attendee s0 p (end_date task) with
             | None => exists e : CalendarEvent, e ∈ created /\ attendee_id e = p
             | Some ev =>
                 is_Some (get_relationship (db res.1) (ev_id ev) EVENT_MODEL
                            (id task) TASK_MODEL)
             end).

Lemma notify_loop_spec (s0 : Session) (task : Task) (ps : list nat)
    (acc : Builder * gset nat) :
  loop_result s0 task ps acc (foldl (notify_person_at s0 task) acc ps).
Proof.
  revert acc. induction ps as [|p ps IH]; intros acc.
  - split; [simpl; set_solver |].
    exists [], []. simpl. rewrite !app_nil_r.
    repeat split; try done.
    intros p Hp. by apply elem_of_nil in Hp.
  - simpl foldl.
    destruct (IH (notify_person_at s0 task acc p))
      as (Hids & created & added & Hev & Hrel & Hcr & Hadd & Hps).
    revert Hids Hev Hrel Hcr Hadd Hps.
    generalize (foldl (notify_person_at s0 task)
                  (notify_person_at s0 task acc p) ps).
    intros res. unfold notify_person_at at 1 2 3 4 5.
    unfold loop_result, reconfirmed. simpl omap.
    destruct (get_event_by_date_and_attendee s0 p (end_date task))
      as [ev|] eqn:Hlook; simpl.
    + destruct (create_event_relationship_db task ev acc.1)
        as (He & Hn & (extra & Hx & Hextra) & Hsome).
      intros Hids Hev Hrel Hcr Hadd Hps.
      rewrite He in Hev. rewrite Hn in Hcr, Hadd.
      split; [rewrite Hids; fold (reconfirmed s0 task ps); set_solver |].
      exists created, (extra ++ added).
      split; [done |]. split; [by rewrite Hrel, Hx, <- app_assoc |]. split.
      { eapply Forall_impl; [exact Hcr |]. simpl.
        intros e (H1 & H2 & H3 & H4).
        repeat split; [done | by right | done | set_solver]. }
      split.
      { apply Forall_app. split.
        - destruct Hextra as [->| ->]; [by apply Forall_nil |].
          apply Forall_singleton. exists ev. split; [done |]. right. by left.
        - eapply Forall_impl; [exact Hadd |]. simpl.
          intros r (e & -> & [H|H]); exists e; (split; [done |]).
          + by left.
          + right. by right. }
      intros q Hq. apply elem_of_cons in Hq as [->|Hq].
      * rewrite Hlook.
        eapply (get_relationship_app _ _ added); [exact Hrel | exact Hsome].
      * by apply Hps.
    + intros Hids Hev Hrel Hcr Hadd Hps.
      split; [done |].
      set (e0 := {| ev_id := next_event_id (db acc.1);
                    due_date := end_date task;
                    attendee_id := p;
                    ev_title := TASK_TITLE_TEMPLATE (title_prefix acc.1);
                    modified_by_id := p |}) in *.
      exists (e0 :: created), (Relationship_of task e0 :: added).
      split; [by rewrite Hev, <- app_assoc |].
      split; [by rewrite Hrel, <- app_assoc |]. split.
      { apply Forall_cons. split.
        - repeat split; [by left | done | by left].
        - eapply Forall_impl; [exact Hcr |]. simpl.
          intros e (H1 & H2 & H3 & H4).
          repeat split; [done | by right | lia | by right]. }
      split.
      { apply Forall_cons. split.
        - exists e0. split; [done |]. by left.
        - eapply Forall_impl; [exact Hadd |]. simpl.
          intros r (e & -> & [H|H]); exists e; (split; [done |]).
          + left. lia.
          + by right. }
      intros q Hq. apply elem_of_cons in Hq as [->|Hq].
      * rewrite Hlook. exists e0. split; [by left | done].
      * specialize (Hps q Hq).
        destruct (get_event_by_date_and_attendee s0 q (end_date task)); [done |].
        destruct Hps as (e & He & Ha). exists e. split; [by right | done].
Qed.

(** *** [_generate_events_for_task] as its two loops *)

(** The persons the pass goes through: none when the task is not eligible. *)
Definition notified (task : Task) : list nat :=
  if _should_create_event_for task
  then elements (_get_task_persons_ids_to_notify task)
  else [].

Lemma generate_events_for_task_eq (task : Task) (b : Builder) :
  _generate_events_for_task task b
  = foldl (fun b d => _delete_event_relationship d (id task) b)
      (foldl (notify_person_at (db b) task)
             (b, dd_get (task_mappings b) (id task)) (notified task)).1
      (elements
         (foldl (notify_person_at (db b) task)
                (b, dd_get (task_mappings b) (id task)) (notified task)).2).
Proof.
  unfold _generate_events_for_task, notified.
  assert ((if decide (is_Some (task_mappings b !! id task))
           then dd_get (task_mappings b) (id task) else ∅)
          = dd_get (task_mappings b) (id task)) as ->.
  { destruct (decide (is_Some (task_mappings b !! id task))) as [|Hn]; [done |].
    unfold dd_get. destruct (task_mappings b !! id task); [| done].
    destruct Hn. eauto. }
  destruct (_should_create_event_for task); [| done].
  rewrite (notify_loop_at_db task _ (db b)); [| apply NoDup_elements | done].
  by destruct (foldl _ _ _).
Qed.

Lemma to_delete_eq (task : Task) (b : Builder) :
  to_delete task b
  = dd_get (task_mappings b) (id task)
    ∖ list_to_set (reconfirmed (db b) task (notified task)).
Proof.
  unfold to_delete, notified. by destruct (_should_create_event_for task).
Qed.

Lemma elem_of_reconfirmed (s : Session) (task : Task) (ps : list nat) (p : nat)
    (ev : CalendarEvent) :
  p ∈ ps ->
  get_event_by_date_and_attendee s p (end_date task) = Some ev ->
  ev_id ev ∈ reconfirmed s task ps.
Proof.
  intros Hp Hev. unfold reconfirmed. apply list_elem_of_omap.
  exists p. split; [done |]. by rewrite Hev.
Qed.

Lemma filter_all_false {A} (f : A -> bool) (l : list A) :
  Forall (fun x => f x = false) l -> List.filter f l = [].
Proof.
  induction 1 as [|x l Hx _ IH]; [done |]. simpl. by rewrite Hx.
Qed.

(** The events a pass creates, whatever the state of the keys. *)
Lemma generate_events_for_task_created (task : Task) (b : Builder) :
  exists created : list CalendarEvent,
    events (db (_generate_events_for_task task b)) = events (db b) ++ created
    /\ Forall (fun e => due_date e = end_date task
                        /\ attendee_id e ∈ notified task) created.
Proof.
  rewrite generate_events_for_task_eq.
  destruct (notify_loop_spec (db b) task (notified task)
              (b, dd_get (task_mappings b) (id task)))
    as (_ & created & added & Hev & _ & Hcr & _).
  revert Hev Hcr. generalize (foldl (notify_person_at (db b) task)
                     (b, dd_get (task_mappings b) (id task)) (notified task)).
  intros res Hev Hcr.
  destruct (delete_loop_db (id task) (elements res.2) res.1) as (He & _);
    [apply NoDup_elements |].
  exists created. split; [by rewrite He, Hev |].
  eapply Forall_impl; [exact Hcr |]. simpl. tauto.
Qed.

(** The whole effect of a pass on the database, for a builder whose mapped
    events carry keys that were given out already. *)
Lemma generate_events_for_task_db (task : Task) (b : Builder) :
  (forall e : nat,
     e ∈ dd_get (task_mappings b) (id task) -> e < next_event_id (db b)) ->
  (exists created : list CalendarEvent,
     events (db (_generate_events_for_task task b)) = events (db b) ++ created
     /\ forall p : nat, p ∈ notified task ->
          match get_event_by_date_and_attendee (db b) p (end_date task) with
          | None =>
              exists e : CalendarEvent,
                e ∈ created /\ attendee_id e = p /\ due_date e = end_date task
                /\ Relationship_of task e
                   ∈ relationships (db (_generate_events_for_task task b))
          | Some ev =>
              is_Some (get_relationship (db (_generate_events_for_task task b))
                         (ev_id ev) EVENT_MODEL (id task) TASK_MODEL)
          end)
  /\ (forall e : nat, e ∈ to_delete task b ->
        link_count (db (_generate_events_for_task task b)) e (id task)
        = link_count (db b) e (id task) - 1)
  /\ (forall e : nat, e ∉ to_delete task b ->
        link_count (db b) e (id task)
        <= link_count (db (_generate_events_for_task task b)) e (id task))
  /\ (forall r : Relationship,
        r ∈ relationships (db b) ->
        (forall e : nat, e ∈ to_delete task b ->
           links e EVENT_MODEL (id task) TASK_MODEL r = false) ->
        r ∈ relationships (db (_generate_events_for_task task b))).
Proof.
  intros Hfresh.
  rewrite generate_events_for_task_eq, to_delete_eq.
  destruct (notify_loop_spec (db b) task (notified task)
              (b, dd_get (task_mappings b) (id task)))
    as (Hids & created & added & Hev & Hrel & Hcr & Hadd & Hps).
  revert Hids Hev Hrel Hcr Hadd Hps.
  generalize (foldl (notify_person_at (db b) task)
                (b, dd_get (task_mappings b) (id task)) (notified task)).
  intros res. simpl. intros Hids Hev Hrel Hcr Hadd Hps.
  destruct (delete_loop_db (id task) (elements res.2) res.1)
    as (He & Hc & Hr); [apply NoDup_elements |].
  rewrite <- Hids.
  assert (forall e : nat, e ∈ res.2 ->
            link_count (db res.1) e (id task) = link_count (db b) e (id task))
    as Hsame.
  { intros e He2.
    rewrite (link_count_app (db b) (db res.1) added); [| done].
    rewrite filter_all_false; [simpl; lia |].
    eapply Forall_impl; [exact Hadd |]. simpl.
    intros r (e' & -> & Hcase).
    destruct (links e EVENT_MODEL (id task) TASK_MODEL (Relationship_of task e'))
      eqn:Hl; [| done].
    apply links_Relationship_of in Hl as [<- _].
    rewrite Hids in He2. apply elem_of_difference in He2 as [Hold Hnot].
    destruct Hcase as [Hge|Hre].
    - specialize (Hfresh _ Hold). lia.
    - destruct Hnot. by apply elem_of_list_to_set. }
  split; [| split; [| split]].
  - exists created. split; [by rewrite He, Hev |].
    intros p Hp. specialize (Hps p Hp).
    destruct (get_event_by_date_and_attendee (db b) p (end_date task))
      as [ev|] eqn:Hlook.
    + apply link_count_pos. apply link_count_pos in Hps.
      rewrite Hc. rewrite decide_False; [done |].
      rewrite elem_of_elements, Hids.
      intros [_ Hnot]%elem_of_difference. destruct Hnot.
      apply elem_of_list_to_set. by eapply elem_of_reconfirmed.
    + destruct Hps as (e & Hin & Hatt).
      rewrite Forall_forall in Hcr.
      destruct (Hcr e Hin) as (Hdue & _ & Hkey & Hr0).
      exists e. repeat split; try done.
      apply Hr; [rewrite Hrel; set_solver |].
      intros d Hd. apply elem_of_elements in Hd.
      destruct (links d EVENT_MODEL (id task) TASK_MODEL (Relationship_of task e))
        eqn:Hl; [| done].
      apply links_Relationship_of in Hl as [<- _].
      rewrite Hids in Hd. apply elem_of_difference in Hd as [Hold _].
      specialize (Hfresh _ Hold). lia.
  - intros e He2. rewrite Hc, decide_True; [| by apply elem_of_elements].
    by rewrite Hsame.
  - intros e He2. rewrite Hc, decide_False; [| by rewrite elem_of_elements].
    rewrite (link_count_app (db b) (db res.1) added); [lia | done].
  - intros r Hin Hl. apply Hr; [rewrite Hrel; set_solver |].
    intros d Hd. apply Hl. by apply elem_of_elements.
Qed.

Lemma link_count_none (s : Session) (e t : nat) :
  link_count s e t = 0 -> get_relationship s e EVENT_MODEL t TASK_MODEL = None.
Proof.
  intros Hzero.
  destruct (get_relationship s e EVENT_MODEL t TASK_MODEL) eqn:Hget; [| done].
  assert (0 < link_count s e t) as Hpos; [| lia].
  apply link_count_pos. by rewrite Hget.
Qed.

(** C2: for a task processed by [_generate_events_for_task], in a database
    where the events mapped to the task carry keys given out before and no
    such event has more than one relationship row with the task: when the
    task is eligible, every person to notify without an event for the due
    date gets a new event with a relationship to the task, and for every
    other person the relationship to the existing event is there afterwards;
    exactly the events mapped before and not re-confirmed have their
    relationship to the task deleted (no relationship between them and the
    task is left, the relationships of the other events stay, no other row
    is removed); for a task that is not eligible no event is created and no
    event mapped before has a relationship to the task left. *)
Theorem generate_events_for_task_spec (task : Task) (b : Builder) :
  (forall e : nat,
     e ∈ dd_get (task_mappings b) (id task) -> e < next_event_id (db b)) ->
  (forall e : nat,
     e ∈ dd_get (task_mappings b) (id task) ->
     link_count (db b) e (id task) <= 1) ->
  (_should_create_event_for task = true ->
   exists created : list CalendarEvent,
     events (db (_generate_events_for_task task b)) = events (db b) ++ created
     /\ forall p : nat, p ∈ _get_task_persons_ids_to_notify task ->
          match get_event_by_date_and_attendee (db b) p (end_date task) with
          | None =>
              exists e : CalendarEvent,
                e ∈ created /\ attendee_id e = p /\ due_date e = end_date task
                /\ Relationship_of task e
                   ∈ relationships (db (_generate_events_for_task task b))
          | Some ev =>
              is_Some (get_relationship (db (_generate_events_for_task task b))
                         (ev_id ev) EVENT_MODEL (id task) TASK_MODEL)
          end)
  /\ (forall e : nat, e ∈ to_delete task b ->
        get_relationship (db (_generate_events_for_task task b))
          e EVENT_MODEL (id task) TASK_MODEL = None
        /\ link_count (db (_generate_events_for_task task b)) e (id task) = 0)
  /\ (forall e : nat, e ∉ to_delete task b ->
        link_count (db b) e (id task)
        <= link_count (db (_generate_events_for_task task b)) e (id task))
  /\ (forall r : Relationship,
        r ∈ relationships (db b) ->
        (forall e : nat, e ∈ to_delete task b ->
           links e EVENT_MODEL (id task) TASK_MODEL r = false) ->
        r ∈ relationships (db (_generate_events_for_task task b)))
  /\ (_should_create_event_for task = false ->
      events (db (_generate_events_for_task task b)) = events (db b)
      /\ forall e : nat, e ∈ dd_get (task_mappings b) (id task) ->
           get_relationship (db (_generate_events_for_task task b))
             e EVENT_MODEL (id task) TASK_MODEL = None).
Proof.
  intros Hfresh Hone.
  destruct (generate_events_for_task_db task b Hfresh)
    as ((created & Hev & Hps) & Hdel & Hkeep & Hrows).
  assert (forall e : nat, e ∈ to_delete task b ->
            link_count (db (_generate_events_for_task task b)) e (id task) = 0)
    as Hgone.
  { intros e He. rewrite (Hdel e He).
    assert (e ∈ dd_get (task_mappings b) (id task)) as Hold.
    { unfold to_delete in He. by apply elem_of_difference in He as [He _]. }
    specialize (Hone e Hold). lia. }
  split; [| split; [| split; [done | split; [done |]]]].
  - intros Hyes. exists created. split; [done |].
    intros p Hp. apply Hps. unfold notified. rewrite Hyes.
    by apply elem_of_elements.
  - intros e He. split; [| by apply Hgone]. by apply link_count_none, Hgone.
  - intros Hno. split.
    + destruct (generate_events_for_task_created task b) as (cr & -> & Hcr).
      unfold notified in Hcr. rewrite Hno in Hcr.
      destruct cr as [|e cr]; [by rewrite app_nil_r |].
      apply Forall_cons in Hcr as [[_ Hin] _]. by apply elem_of_nil in Hin.
    + intros e He. apply link_count_none, Hgone.
      unfold to_delete. rewrite Hno. set_solver.
Qed.

Lemma sample_builder_mapped (e : nat) :
  e ∈ dd_get (task_mappings sample_builder) (id sample_task) -> e = 1 \/ e = 2.
Proof.
  assert (dd_get (task_mappings sample_builder) (id sample_task)
          = ({[1; 2]} : gset nat)) as -> by (by vm_compute).
  set_solver.
Qed.

Lemma generate_events_for_task_spec_witness :
  get_relationship (db (_generate_events_for_task sample_task sample_builder))
    2 EVENT_MODEL (id sample_task) TASK_MODEL = None
  /\ link_count (db (_generate_events_for_task sample_task sample_builder)) 2
                (id sample_task) = 0.
Proof.
  refine (proj1 (proj2 (generate_events_for_task_spec sample_task
                          sample_builder _ _)) 2 _).
  - intros e [-> | ->]%sample_builder_mapped; simpl; lia.
  - intros e [-> | ->]%sample_builder_mapped; vm_compute; lia.
  - by vm_compute.
Defined.

(** Where the task and an event have two relationship rows (one in each
    direction), [_delete_event_relationship] removes the row it finds and
    the other one stays: hence the hypothesis of at most one row. *)
Example generate_events_for_task_two_rows :
  let task :=
    {| id := 1; end_date := 20180301; status := "In Progress";
       title := "Review controls";
       DEPRECATED := "Deprecated"; VERIFIED := "Verified"; FINISHED := "Finished";
       is_verification_needed := true; is_in_history := false;
       is_overdue := true; workflow := {| workflow_archived := false |};
       get_person_ids_for_rolename := fun _ => [] |} in
  let b :=
    {| task_mappings := {[1 := {[2]}]};
       event_mappings := {[2 := {[1]}]};
       title_prefix := "";
       db := {| events := [{| ev_id := 2; due_date := 20180301; attendee_id := 99;
                              ev_title := "Your tasks are due today";
                              modified_by_id := 99 |}];
                relationships :=
                  [{| source_type := TASK_MODEL; source_id := 1;
                      destination_type := EVENT_MODEL; destination_id := 2 |};
                   {| source_type := EVENT_MODEL; source_id := 2;
                      destination_type := TASK_MODEL; destination_id := 1 |}];
                next_event_id := 3 |} |} in
  link_count (db b) 2 1 = 2
  /\ relationships (db (_generate_events_for_task task b))
     = [{| source_type := EVENT_MODEL; source_id := 2;
           destination_type := TASK_MODEL; destination_id := 1 |}].
Proof. by vm_compute. Qed.

(** The pass on the sample builder: events 3 and 4 are created for
    persons 8 and 9, event 1 of person 7 is kept, the relationship of
    event 2 is deleted. *)
Example generate_events_for_task_sample :
  ev_id <$> events (db (_generate_events_for_task sample_task sample_builder))
  = [1; 2; 3; 4]
  /\ destination_id
       <$> relationships (db (_generate_events_for_task sample_task sample_builder))
     = [1; 3; 4]
  /\ elements (dd_get (task_mappings
                         (_generate_events_for_task sample_task sample_builder)) 1)
     = [4; 3; 1].
Proof. by vm_compute. Qed.

(** C5: an event made by [_create_event_with_relationship] is due on the
    task's end date, has the given person as attendee, and is added together
    with a relationship from the task (source) to the event (destination);
    the events [_generate_events_for_task] creates are due on the task's end
    date and their attendees hold the role "Task Assignees" or "Task
    Secondary Assignees" on the task. *)
Theorem created_event_spec (task : Task) (person_id : nat) (b : Builder) :
  (due_date (_create_event_with_relationship task person_id b).1 = end_date task
   /\ attendee_id (_create_event_with_relationship task person_id b).1 = person_id
   /\ events (db (_create_event_with_relationship task person_id b).2)
      = events (db b) ++ [(_create_event_with_relationship task person_id b).1]
   /\ relationships (db (_create_event_with_relationship task person_id b).2)
      = relationships (db b)
        ++ [{| source_type := "CycleTaskGroupObjectTask";
               source_id := id task;
               destination_type := "CalendarEvent";
               destination_id :=
                 ev_id (_create_event_with_relationship task person_id b).1 |}])
  /\ exists created : list CalendarEvent,
       events (db (_generate_events_for_task task b)) = events (db b) ++ created
       /\ Forall (fun e =>
                    due_date e = end_date task
                    /\ (attendee_id e
                          ∈ get_person_ids_for_rolename task "Task Assignees"
                        \/ attendee_id e
                             ∈ get_person_ids_for_rolename task
                                 "Task Secondary Assignees")) created.
Proof.
  split; [done |].
  destruct (generate_events_for_task_created task b) as (created & Hev & Hcr).
  exists created. split; [done |].
  eapply Forall_impl; [exact Hcr |]. simpl.
  intros e [Hdue Hin]. split; [done |].
  unfold notified in Hin.
  destruct (_should_create_event_for task); [| by apply elem_of_nil in Hin].
  apply elem_of_elements in Hin.
  unfold _get_task_persons_ids_to_notify, roles_to_notify in Hin. simpl in Hin.
  apply elem_of_list_to_set, elem_of_app in Hin. done.
Qed.

Lemma mappings_stay_mutually_inverse_witness :
  1 ∈ dd_get (task_mappings
                (run_ops [CreateEventWithRelationship sample_task 7;
                          DeleteEventRelationship 1 1;
                          CreateEventWithRelationship sample_task 8]
                         (CalendarEventBuilder_init "" empty_session))) 1
  <-> 1 ∈ dd_get (event_mappings
                    (run_ops [CreateEventWithRelationship sample_task 7;
                              DeleteEventRelationship 1 1;
                              CreateEventWithRelationship sample_task 8]
                             (CalendarEventBuilder_init "" empty_session))) 1.
Proof.
  apply (mappings_stay_mutually_inverse
           [CreateEventWithRelationship sample_task 7;
            DeleteEventRelationship 1 1;
            CreateEventWithRelationship sample_task 8]
           (CalendarEventBuilder_init "" empty_session)).
  apply mutually_inverse_init.
Defined.

End CalendarFacts.

(** ** The CSV converters *)

Module ConvertersFacts.
Import Py Converters.

(** *** [_get_exportable_queries] *)

Lemma selected_positions_elem (n : nat) (indexes : list Z) (i : nat) :
  i ∈ selected_positions n indexes <-> i < n /\ Z.of_nat i ∈ indexes.
Proof.
  unfold selected_positions.
  rewrite list_elem_of_In, filter_In, in_seq, bool_decide_eq_true.
  intuition lia.
Qed.

Lemma filter_seq_sorted (f : nat -> bool) (start n : nat) :
  StronglySorted lt (List.filter f (seq start n)).
Proof.
  revert start. induction n as [|n IH]; intros start; simpl.
  - constructor.
  - destruct (f start); [| apply IH].
    constructor; [apply IH |].
    apply Forall_forall. intros i Hi.
    apply list_elem_of_In, filter_In in Hi as [Hi _].
    apply in_seq in Hi. lia.
Qed.

Lemma selected_from (indexes : list Z) (pre l : list ObjectQuery) :
  Forall2 (fun i q => (pre ++ l) !! i = Some q)
    (List.filter (fun i => bool_decide (Z.of_nat i ∈ indexes))
                 (seq (length pre) (length l)))
    (omap (fun '(index, object_query) =>
             if decide (Z.of_nat index ∈ indexes)
             then Some object_query else None)
          (enumerate_from (length pre) l)).
Proof.
  revert pre. induction l as [|q l IH]; intros pre; simpl.
  - constructor.
  - specialize (IH (pre ++ [q])).
    rewrite <- app_assoc, length_app, Nat.add_1_r in IH. simpl in IH.
    destruct (decide (Z.of_nat (length pre) ∈ indexes)) as [Hin|Hnin].
    + rewrite bool_decide_eq_true_2; [| done].
      constructor; [| done]. by apply list_lookup_middle.
    + rewrite bool_decide_eq_false_2; done.
Qed.

(** C10: [_get_exportable_queries] returns [ids_by_type] as it is when
    [exportable_queries] is empty; otherwise it returns, in their original
    order, exactly the elements of [ids_by_type] at the positions that occur
    in [exportable_queries]: the result lists the elements at the selected
    positions, which are strictly increasing and are all the positions of
    [ids_by_type] that occur in the index list. *)
Theorem get_exportable_queries_spec (c : ExportConverter) :
  match exportable_queries c with
  | [] => _get_exportable_queries c = ids_by_type c
  | _ :: _ =>
      Forall2 (fun i q => ids_by_type c !! i = Some q)
        (selected_positions (length (ids_by_type c)) (exportable_queries c))
        (_get_exportable_queries c)
  end
  /\ StronglySorted lt
       (selected_positions (length (ids_by_type c)) (exportable_queries c))
  /\ forall i : nat,
       i ∈ selected_positions (length (ids_by_type c)) (exportable_queries c)
       <-> i < length (ids_by_type c) /\ Z.of_nat i ∈ exportable_queries c.
Proof.
  split; [| split].
  - unfold _get_exportable_queries.
    destruct (exportable_queries c) as [|z zs]; [done |].
    apply (selected_from (z :: zs) [] (ids_by_type c)).
  - apply filter_seq_sorted.
  - intros i. apply selected_positions_elem.
Qed.

(** The second and third of three queries are selected, in the order of
    [ids_by_type], whatever the order of the indexes. *)
Example get_exportable_queries_sample :
  let q := fun n => {| object_name := Some n; ids := None; fields := None |} in
  _get_exportable_queries
    {| exportable := ∅; block_converters := [];
       ids_by_type := [q "Program"; q "Risk"; q "Control"];
       exportable_queries := [2; 1; 7; -1]%Z |}
  = [q "Risk"; q "Control"].
Proof. reflexivity. Qed.

(** *** [build_csv_from_row_data] and [export_csv_data] *)

Lemma foldl_max (x : nat) (l : list nat) :
  foldl Nat.max x l = Nat.max x (foldr Nat.max 0 l).
Proof.
  revert x. induction l as [|y l IH]; intros x; simpl; [lia |].
  rewrite IH. lia.
Qed.

Lemma py_max_cons (bc : BlockConverter) (bcs : list BlockConverter) :
  py_max (block_width <$> bc :: bcs) = Ok (max_block_width (bc :: bcs)).
Proof. unfold py_max, max_block_width. csimpl. by rewrite foldl_max. Qed.

Lemma max_block_width_upper (bcs : list BlockConverter) (bc : BlockConverter) :
  bc ∈ bcs -> block_width bc <= max_block_width bcs.
Proof.
  unfold max_block_width.
  induction bcs as [|x bcs IH]; [by intros ?%elem_of_nil |].
  intros [->|Hin]%elem_of_cons; csimpl; [lia |]. specialize (IH Hin). lia.
Qed.

Lemma max_block_width_attained (bc : BlockConverter) (bcs : list BlockConverter) :
  exists x : BlockConverter,
    x ∈ bc :: bcs /\ block_width x = max_block_width (bc :: bcs).
Proof.
  revert bc. induction bcs as [|y bcs IH]; intros bc.
  - exists bc. split; [by left |]. unfold max_block_width. csimpl. lia.
  - destruct (IH y) as (x & Hx & Hw).
    unfold max_block_width in *. csimpl in *.
    destruct (decide (block_width bc <= Nat.max (block_width y)
                        (foldr Nat.max 0 (block_width <$> bcs)))).
    + exists x. split; [by right | lia].
    + exists bc. split; [by left | lia].
Qed.

Lemma length_pad (width : nat) (line : list string) :
  length (pad width line) = Nat.max width (length line).
Proof. unfold pad. rewrite length_app, length_replicate. lia. Qed.

Lemma append_rows (sb : CsvStringBuilder) (data : list (list string)) :
  foldl (fun sb line => append_line ("" :: line) sb) sb data
  = {| table_width := table_width sb;
       csv_lines_acc :=
         csv_lines_acc sb
         ++ ((fun line => pad (table_width sb) ("" :: line)) <$> data) |}.
Proof.
  revert sb. induction data as [|line data IH]; intros sb; simpl.
  - rewrite app_nil_r. by destruct sb.
  - rewrite IH. simpl. by rewrite <- app_assoc.
Qed.

Lemma append_block_layout (sb : CsvStringBuilder) (bc : BlockConverter) :
  append_block sb bc
  = {| table_width := table_width sb;
       csv_lines_acc := csv_lines_acc sb ++ block_layout (table_width sb) bc |}.
Proof.
  unfold append_block, block_layout. rewrite append_rows.
  unfold append_line. simpl.
  assert (pad (table_width sb) [] = replicate (table_width sb) "") as ->.
  { unfold pad. simpl. by rewrite Nat.sub_0_r. }
  f_equal. rewrite <- !app_assoc. done.
Qed.

Lemma append_blocks_layout (sb : CsvStringBuilder) (bcs : list BlockConverter) :
  foldl append_block sb bcs
  = {| table_width := table_width sb;
       csv_lines_acc := csv_lines_acc sb ++ export_layout (table_width sb) bcs |}.
Proof.
  revert sb. induction bcs as [|bc bcs IH]; intros sb.
  - unfold export_layout. simpl. rewrite app_nil_r. by destruct sb.
  - simpl foldl. rewrite IH, append_block_layout. simpl.
    unfold export_layout. simpl. by rewrite <- app_assoc.
Qed.

(** A block fits its width: its header rows and data rows have at most
    [block_width] cells. *)
Definition block_fits (bc : BlockConverter) : Prop :=
  length (generate_csv_header bc).1 <= block_width bc
  /\ length (generate_csv_header bc).2 <= block_width bc
  /\ Forall (fun line => length line <= block_width bc) (generate_row_data bc).

Lemma block_layout_width (width : nat) (bc : BlockConverter) :
  block_fits bc -> block_width bc < width ->
  Forall (fun line => length line = width) (block_layout width bc).
Proof.
  intros (H0 & H1 & Hrows) Hw. unfold block_layout. cbn [app].
  apply Forall_cons. split; [rewrite length_pad; simpl; lia |].
  apply Forall_cons. split; [rewrite length_pad; simpl; lia |].
  apply Forall_app. split.
  - apply Forall_fmap. eapply Forall_impl; [exact Hrows |].
    intros line Hl. unfold compose. rewrite length_pad. simpl in *. lia.
  - repeat constructor; by rewrite length_replicate.
Qed.

Lemma export_layout_width (width : nat) (bcs : list BlockConverter) :
  Forall block_fits bcs ->
  Forall (fun bc => block_width bc < width) bcs ->
  Forall (fun line => length line = width) (export_layout width bcs).
Proof.
  unfold export_layout. induction 1 as [|bc bcs Hbc _ IH]; intros Hw.
  - constructor.
  - apply Forall_cons in Hw as [Hw1 Hw2].
    rewrite fmap_cons. change (concat (?x :: ?l)) with (x ++ concat l).
    apply Forall_app. split; [by apply block_layout_width | by apply IH].
Qed.

Section ExportFacts.

Variable ExportBlockConverter :
  ObjectClass -> Fields -> list nat -> string -> BlockConverter.
Variable SnapshotBlockConverter : list nat -> Fields -> BlockConverter.
Variable get_csv_string : CsvStringBuilder -> string.

(** C3: for a non-empty list of block converters, the csv
    [build_csv_from_row_data] returns is that of the block layout: per
    block, in order, a line starting with "Object type", a line starting
    with the block's name, one line per data row with an empty first cell,
    and two empty lines, every line padded to the table width, which is one
    plus the largest block width; when every block fits its width, every
    line has exactly that many cells. *)
Theorem build_csv_from_row_data_layout (c : ExportConverter)
    (bc : BlockConverter) (bcs : list BlockConverter) :
  block_converters c = bc :: bcs ->
  build_csv_from_row_data get_csv_string c
  = Ok (get_csv_string
          {| table_width := max_block_width (bc :: bcs) + 1;
             csv_lines_acc :=
               export_layout (max_block_width (bc :: bcs) + 1) (bc :: bcs) |})
  /\ export_layout (max_block_width (bc :: bcs) + 1) (bc :: bcs)
     = concat
         ((fun b =>
             [pad (max_block_width (bc :: bcs) + 1)
                  ("Object type" :: (generate_csv_header b).1);
              pad (max_block_width (bc :: bcs) + 1)
                  (name b :: (generate_csv_header b).2)]
             ++ ((fun line => pad (max_block_width (bc :: bcs) + 1) ("" :: line))
                   <$> generate_row_data b)
             ++ [replicate (max_block_width (bc :: bcs) + 1) "";
                 replicate (max_block_width (bc :: bcs) + 1) ""])
          <$> bc :: bcs)
  /\ (forall b : BlockConverter,
        b ∈ bc :: bcs -> block_width b <= max_block_width (bc :: bcs))
  /\ (exists b : BlockConverter,
        b ∈ bc :: bcs /\ block_width b = max_block_width (bc :: bcs))
  /\ (Forall block_fits (bc :: bcs) ->
      Forall (fun line => length line = max_block_width (bc :: bcs) + 1)
             (export_layout (max_block_width (bc :: bcs) + 1) (bc :: bcs))).
Proof.
  intros Hbcs. split; [| split; [| split; [| split]]].
  - unfold build_csv_from_row_data. rewrite Hbcs, py_max_cons.
    simpl mbind. unfold mbind, result_bind.
    change (foldl append_block (append_block ?sb bc) bcs)
      with (foldl append_block sb (bc :: bcs)).
    by rewrite append_blocks_layout.
  - done.
  - apply max_block_width_upper.
  - apply max_block_width_attained.
  - intros Hfit. apply export_layout_width; [done |].
    apply Forall_forall. intros b Hb.
    pose proof (max_block_width_upper _ _ Hb). lia.
Qed.

End ExportFacts.

Lemma get_exportable_queries_no_ids (exportables : gmap string ObjectClass)
    (queries : option (list Z)) :
  _get_exportable_queries (ExportConverter_init exportables [] queries) = [].
Proof.
  unfold _get_exportable_queries. simpl. by destruct (default [] queries).
Qed.

Section ExportEmptyFacts.

Variable ExportBlockConverter :
  ObjectClass -> Fields -> list nat -> string -> BlockConverter.
Variable SnapshotBlockConverter : list nat -> Fields -> BlockConverter.
Variable get_csv_string : CsvStringBuilder -> string.

(** C8: for an export whose queries yield no block converter,
    [build_csv_from_row_data] raises ValueError (the maximum of no block
    width), and [export_csv_data] catches it and returns the empty
    string. *)
Theorem export_csv_data_no_blocks (exportables : gmap string ObjectClass)
    (ids : list ObjectQuery) (queries : option (list Z)) :
  _get_exportable_queries (ExportConverter_init exportables ids queries) = [] ->
  py_max (block_width <$> []) = Raise ValueError
  /\ build_csv_from_row_data get_csv_string
       (ExportConverter_init exportables ids queries) = Raise ValueError
  /\ export_csv_data ExportBlockConverter SnapshotBlockConverter get_csv_string
       (ExportConverter_init exportables ids queries)
     = Ok ("", ExportConverter_init exportables ids queries).
Proof.
  intros Hnone. split; [done |]. split; [done |].
  unfold export_csv_data, initialize_block_converters.
  by rewrite Hnone.
Qed.

End ExportEmptyFacts.

Lemma export_csv_data_no_blocks_witness :
  py_max (block_width <$> []) = Raise ValueError
  /\ build_csv_from_row_data sample_csv_string
       (ExportConverter_init sample_exportables [] None) = Raise ValueError
  /\ export_csv_data sample_block sample_snapshot_block sample_csv_string
       (ExportConverter_init sample_exportables [] None)
     = Ok ("", ExportConverter_init sample_exportables [] None).
Proof.
  apply (export_csv_data_no_blocks sample_block sample_snapshot_block
           sample_csv_string sample_exportables [] None).
  apply get_exportable_queries_no_ids.
Defined.

(** Indexes that select no query give no block either. *)
Example export_csv_data_no_selected :
  export_csv_data sample_block sample_snapshot_block sample_csv_string
    (ExportConverter_init sample_exportables sample_queries (Some [5%Z]))
  = Ok ("", ExportConverter_init sample_exportables sample_queries (Some [5%Z])).
Proof. reflexivity. Qed.

(** The export of the two sample queries: width 3, two blocks. *)
Example export_csv_data_sample :
  (fun r => match r with Ok (csv, _) => Some csv | Raise _ => None end)
    (export_csv_data sample_block sample_snapshot_block sample_csv_string
       (ExportConverter_init sample_exportables sample_queries None))
  = Some ("Object type,Code*,Title*;Program,slug,title;,P-1,row;,P-2,row;,,;,,;"
          ++ "Object type,Code*,;Snapshot,slug,;,5,;,,;,,")%string.
Proof. by vm_compute. Qed.

Lemma build_csv_from_row_data_layout_witness :
  build_csv_from_row_data sample_csv_string
    {| exportable := sample_exportables;
       block_converters :=
         [sample_block {| cls_name := "Program" |} AllFields [1; 2] "Program";
          sample_snapshot_block [5] AllFields];
       ids_by_type := sample_queries;
       exportable_queries := [] |}
  = Ok (sample_csv_string
          {| table_width := 3;
             csv_lines_acc :=
               export_layout 3
                 [sample_block {| cls_name := "Program" |} AllFields [1; 2] "Program";
                  sample_snapshot_block [5] AllFields] |}).
Proof.
  refine (proj1 (build_csv_from_row_data_layout sample_csv_string _
                   (sample_block {| cls_name := "Program" |} AllFields [1; 2] "Program")
                   [sample_snapshot_block [5] AllFields] _)).
  reflexivity.
Defined.

(** *** [ImportConverter.initialize_block_converters] *)

Example strip_lower_sample : lower (strip "  Program Risk ") = "program risk".
Proof. reflexivity. Qed.

Section ImportFacts.

Variable CsvLine : Type.
Variable split_blocks :
  list (list string) -> list (nat * list (list string) * list CsvLine).
Variable extract_relevant_data :
  list (list string) -> list string * list (list string).
Variable check_block_restrictions :
  ImportBlockConverter CsvLine -> ImportBlockConverter CsvLine.

(** The block converter made for a block: its class name is the stripped,
    lowercased first cell of the block's second line, its object class what
    the exportables have under that name, its lines those of the block
    without the first two. *)
Definition converter_of_block (c : ImportConverter)
    (block : nat * list (list string) * list CsvLine)
    (bc : ImportBlockConverter CsvLine) : Prop :=
  exists cell : string,
    block.1.2 !! 1 ≫= (.!! 0) = Some cell
    /\ class_name bc = lower (strip cell)
    /\ object_class bc = import_exportable c !! lower (strip cell)
    /\ csv_lines bc = drop 2 block.2
    /\ rows bc = (extract_relevant_data block.1.2).2
    /\ raw_headers bc = (extract_relevant_data block.1.2).1
    /\ offset bc = block.1.1.

(** One block: IndexError where the block has no second line with a first
    cell, else [check_block_restrictions] on the block converter made. *)
Lemma initialize_import_block_cases (c : ImportConverter)
    (block : nat * list (list string) * list CsvLine) :
  (block.1.2 !! 1 ≫= (.!! 0) = None
   /\ initialize_import_block extract_relevant_data check_block_restrictions
        c block = Raise IndexError)
  \/ (exists bc : ImportBlockConverter CsvLine,
        converter_of_block c block bc
        /\ initialize_import_block extract_relevant_data
             check_block_restrictions c block
           = Ok (check_block_restrictions bc)).
Proof.
  destruct block as [[off data] lines]. unfold initialize_import_block. simpl.
  destruct (data !! 1 ≫= (.!! 0)) as [cell|] eqn:Hcell; simpl; [| by left].
  right. destruct (extract_relevant_data data) as [headers data_rows] eqn:Hex.
  eexists. split; [| reflexivity].
  exists cell. simpl. by rewrite Hex.
Qed.

Lemma yield_blocks_total (c : ImportConverter)
    (blocks : list (nat * list (list string) * list CsvLine)) :
  exists made : list (ImportBlockConverter CsvLine),
    (yield_blocks extract_relevant_data check_block_restrictions c blocks).1
    = check_block_restrictions <$> made
    /\ Forall2 (converter_of_block c) (take (length made) blocks) made
    /\ match (yield_blocks extract_relevant_data check_block_restrictions
                c blocks).2 with
       | None => length made = length blocks
       | Some e =>
           e = IndexError
           /\ exists block : nat * list (list string) * list CsvLine,
                blocks !! length made = Some block
                /\ block.1.2 !! 1 ≫= (.!! 0) = None
       end.
Proof.
  induction blocks as [|block blocks IH].
  - exists []. simpl. split; [done |]. split; [constructor | done].
  - simpl.
    destruct (initialize_import_block_cases c block)
      as [[Hnone ->]|(bc & Hbc & ->)].
    + exists []. simpl. split; [done |]. split; [constructor |].
      split; [done |]. by exists block.
    + destruct IH as (made & Hy & Hall & Hend).
      destruct (yield_blocks extract_relevant_data check_block_restrictions
                  c blocks) as [yielded raised].
      simpl in *. exists (bc :: made). simpl.
      split; [by rewrite Hy |]. split; [by constructor |].
      destruct raised as [e|]; [done | by rewrite Hend].
Qed.


End ImportFacts.

(** The block converter of the sample import: class name "program", the
    registered class, the two data lines. *)
Example import_sample :
  import_initialize_block_converters sample_split_blocks
    sample_extract_relevant_data (fun bc => bc) (sample_import " Program ")
  = ([{| object_class := Some {| cls_name := "Program" |};
         rows := [["P-1"; "First"]; ["P-2"; "Second"]];
         raw_headers := ["Code*"; "Title*"];
         offset := 0;
         class_name := "program";
         csv_lines := [3; 4];
         ignore := false |}], None).
Proof. by vm_compute. Qed.

(** An import whose only block has one line. *)
Definition sample_short_import : ImportConverter :=
  {| import_exportable := sample_exportables;
     dry_run := true;
     csv_data := [["Object type"; ""; ""]] |}.


End ConvertersFacts.

(** ** The labels migration *)

Module MigrationFacts.
Import Py Migration.

Lemma upgrade_creates_labels (s : gmap string Table) :
  s !! "labels" = None -> upgrade s = Ok (<["labels" := labels_table]> s).
Proof.
  intros Hnew. unfold upgrade, create_table, TABLE_NAME. rewrite Hnew.
  simpl. unfold create_index at 2. rewrite lookup_insert_eq. simpl.
  rewrite insert_insert_eq.
  unfold create_index. rewrite lookup_insert_eq. simpl.
  by rewrite insert_insert_eq.
Qed.

(** C7: on a schema without a table named 'labels', [upgrade] creates
    exactly that table (the six columns, the primary key on id, the foreign
    key from context_id to contexts.id and the two indexes) and leaves every
    other table as it is; [downgrade] drops it, and [downgrade] after
    [upgrade] gives back the schema there was before. *)
Theorem upgrade_downgrade_round_trip (s : gmap string Table) :
  s !! "labels" = None ->
  upgrade s = Ok (<["labels" := labels_table]> s)
  /\ (forall table : string,
        table <> "labels" ->
        (<["labels" := labels_table]> s) !! table = s !! table)
  /\ col_name <$> columns labels_table
     = ["title"; "modified_by_id"; "created_at"; "updated_at"; "context_id"; "id"]
  /\ col_name <$> List.filter primary_key (columns labels_table) = ["id"]
  /\ foreign_keys labels_table
     = [{| fk_columns := ["context_id"];
           fk_refcolumns := ["contexts.id"];
           fk_name := "fk_label_context_id" |}]
  /\ length (indexes labels_table) = 2
  /\ downgrade (<["labels" := labels_table]> s) = Ok s
  /\ (upgrade s ≫= downgrade) = Ok s.
Proof.
  intros Hnew.
  assert (downgrade (<["labels" := labels_table]> s) = Ok s) as Hdown.
  { unfold downgrade, drop_table, TABLE_NAME.
    rewrite lookup_insert_eq, delete_insert_eq. by rewrite delete_id. }
  split; [by apply upgrade_creates_labels |].
  split; [intros table Hne; by rewrite lookup_insert_ne |].
  do 4 (split; [done |]).
  split; [done |].
  by rewrite upgrade_creates_labels.
Qed.

(** A schema with the contexts table only. *)
Definition sample_schema : gmap string Table :=
  {[ "contexts" :=
       {| columns := [sa_Column "id" SaInteger None true;
                      sa_Column "name" (SaString 128) None false];
          foreign_keys := [];
          indexes := [] |} ]}.

Lemma upgrade_downgrade_round_trip_witness :
  (upgrade sample_schema ≫= downgrade) = Ok sample_schema.
Proof.
  refine (proj2 (proj2 (proj2 (proj2 (proj2 (proj2 (proj2
            (upgrade_downgrade_round_trip sample_schema _)))))))).
  by vm_compute.
Defined.

(** Where the table exists already, [upgrade] fails. *)
Example upgrade_twice :
  (upgrade sample_schema ≫= upgrade) = Raise OperationalError.
Proof. by vm_compute. Qed.

End MigrationFacts.

(** ** The calendar event builder: whole passes *)

Module CalendarPass.
Import Calendar CalendarFacts.

(** *** The mapping tables along a pass *)

Lemma notify_person_inverse (task : Task) (acc : Builder * gset nat) (p : nat) :
  mutually_inverse acc.1 -> mutually_inverse (notify_person task acc p).1.
Proof.
  destruct acc as [b ids]. simpl. intros Hinv.
  destruct (get_event_by_date_and_attendee (db b) p (end_date task)); simpl.
  - by apply create_event_relationship_inverse.
  - by apply create_event_with_relationship_inverse.
Qed.

Lemma generate_events_for_task_inverse (task : Task) (b : Builder) :
  mutually_inverse b -> mutually_inverse (_generate_events_for_task task b).
Proof.
  intros Hinv. unfold _generate_events_for_task.
  set (ids0 := if decide (is_Some (task_mappings b !! id task))
               then dd_get (task_mappings b) (id task) else ∅).
  assert (forall ps acc, mutually_inverse acc.1 ->
            mutually_inverse (foldl (notify_person task) acc ps).1) as Hloop.
  { induction ps as [|p ps IH]; intros acc Hacc; [done |].
    simpl. apply IH. by apply notify_person_inverse. }
  assert (forall ds b0, mutually_inverse b0 ->
            mutually_inverse
              (foldl (fun b d => _delete_event_relationship d (id task) b) b0 ds))
    as Hdel.
  { induction ds as [|d ds IH]; intros b0 Hb0; [done |].
    simpl. apply IH. by apply delete_event_relationship_inverse. }
  destruct (_should_create_event_for task).
  - specialize (Hloop (elements (_get_task_persons_ids_to_notify task))
                      (b, ids0) Hinv).
    destruct (foldl (notify_person task) (b, ids0) _) as [b1 ids1].
    by apply Hdel.
  - by apply Hdel.
Qed.

(** X1: [_generate_events] keeps the two mapping tables inverse to each
    other: if they are before the tasks are gone through, then afterwards
    an event is mapped to a task exactly when the task is mapped to the
    event. *)
Theorem generate_events_keeps_mappings_inverse (tasks : list Task) (b : Builder) :
  mutually_inverse b ->
  forall task_id event_id : nat,
    event_id ∈ dd_get (task_mappings (_generate_events tasks b)) task_id
    <-> task_id ∈ dd_get (event_mappings (_generate_events tasks b)) event_id.
Proof.
  unfold _generate_events. revert b.
  induction tasks as [|task tasks IH]; intros b Hinv; [exact Hinv |].
  simpl. apply IH. by apply generate_events_for_task_inverse.
Qed.

Lemma sample_builder_inverse : mutually_inverse sample_builder.
Proof.
  intros t e. unfold sample_builder, dd_get. simpl.
  destruct (decide (t = 1)) as [->|Ht].
  - rewrite lookup_singleton_eq. simpl.
    destruct (decide (e = 1)) as [->|He1]; [by vm_compute |].
    destruct (decide (e = 2)) as [->|He2]; [by vm_compute |].
    rewrite lookup_insert_ne, lookup_singleton_ne by done. simpl. set_solver.
  - rewrite lookup_singleton_ne by done. simpl.
    destruct (decide (e = 1)) as [->|He1].
    { rewrite lookup_insert_eq. simpl. set_solver. }
    destruct (decide (e = 2)) as [->|He2].
    { rewrite lookup_insert_ne, lookup_singleton_eq by done. simpl. set_solver. }
    rewrite lookup_insert_ne, lookup_singleton_ne by done. simpl. set_solver.
Qed.

Lemma generate_events_keeps_mappings_inverse_witness :
  3 ∈ dd_get (task_mappings (_generate_events [sample_task] sample_builder)) 1
  <-> 1 ∈ dd_get (event_mappings (_generate_events [sample_task] sample_builder)) 3.
Proof.
  apply (generate_events_keeps_mappings_inverse [sample_task] sample_builder).
  apply sample_builder_inverse.
Defined.

(** *** Primary keys along a pass *)

(** The keys of the event rows are distinct and below the next key to be
    given, and the event ids in the mapping tables are keys given already. *)
Definition keys_given (b : Builder) : Prop :=
  NoDup (ev_id <$> events (db b))
  /\ (forall e : CalendarEvent,
        e ∈ events (db b) -> ev_id e < next_event_id (db b))
  /\ (forall t e : nat,
        e ∈ dd_get (task_mappings b) t -> e < next_event_id (db b))
  /\ (forall t e : nat,
        t ∈ dd_get (event_mappings b) e -> e < next_event_id (db b)).

Lemma create_event_with_relationship_keys (task : Task) (p : nat) (b : Builder) :
  keys_given b -> keys_given (_create_event_with_relationship task p b).2.
Proof.
  intros (Hnd & Hev & Htm & Hem). unfold keys_given. simpl.
  split; [| split; [| split]].
  - rewrite fmap_app. apply NoDup_app. split; [done |]. split.
    + intros x Hx Hin. simpl in Hin. apply list_elem_of_singleton in Hin.
      apply list_elem_of_fmap in Hx as (e & -> & He).
      specialize (Hev e He). lia.
    + simpl. apply NoDup_singleton.
  - intros e [He| ->%list_elem_of_singleton]%elem_of_app.
    + specialize (Hev e He). lia.
    + simpl. lia.
  - intros t e. rewrite dd_get_add.
    destruct (decide (id task = t)) as [<-|].
    + intros [He| ->%elem_of_singleton]%elem_of_union; [| lia].
      specialize (Htm _ _ He). lia.
    + intros He. specialize (Htm _ _ He). lia.
  - intros t e. rewrite dd_get_add.
    destruct (decide (next_event_id (db b) = e)) as [<-|]; [lia |].
    intros He. specialize (Hem _ _ He). lia.
Qed.

Lemma create_event_relationship_keys (task : Task) (ev : CalendarEvent)
    (b : Builder) :
  ev_id ev < next_event_id (db b) ->
  keys_given b -> keys_given (_create_event_relationship task ev b).
Proof.
  intros Hkey (Hnd & Hev & Htm & Hem). unfold _create_event_relationship.
  destruct (get_relationship _ _ _ _ _); [done |].
  unfold keys_given. simpl. split; [done |]. split; [done |]. split.
  - intros t e. rewrite dd_get_add.
    destruct (decide (id task = t)) as [<-|]; [| apply Htm].
    intros [He| ->%elem_of_singleton]%elem_of_union; [by eapply Htm | done].
  - intros t e. rewrite dd_get_add.
    destruct (decide (ev_id ev = e)) as [<-|]; [done | apply Hem].
Qed.

Lemma delete_event_relationship_keys (d t : nat) (b : Builder) :
  keys_given b -> keys_given (_delete_event_relationship d t b).
Proof.
  intros (Hnd & Hev & Htm & Hem). unfold _delete_event_relationship.
  destruct (get_relationship _ _ _ _ _); [| done].
  unfold keys_given. simpl. split; [done |]. split; [done |]. split.
  - intros t' e. rewrite dd_get_discard.
    destruct (decide (t = t')) as [<-|]; [| apply Htm].
    intros [He _]%elem_of_difference. by eapply Htm.
  - intros t' e. rewrite dd_get_discard.
    destruct (decide (d = e)) as [<-|]; [| apply Hem].
    intros [He _]%elem_of_difference. by eapply Hem.
Qed.

Lemma notify_person_keys (task : Task) (acc : Builder * gset nat) (p : nat) :
  keys_given acc.1 -> keys_given (notify_person task acc p).1.
Proof.
  destruct acc as [b ids]. simpl. intros Hk.
  destruct (get_event_by_date_and_attendee (db b) p (end_date task))
    as [ev|] eqn:Hlook; simpl.
  - apply create_event_relationship_keys; [| done].
    destruct Hk as (_ & Hev & _). apply Hev.
    apply find_some in Hlook as [Hin _]. by apply list_elem_of_In.
  - by apply create_event_with_relationship_keys.
Qed.

Lemma generate_events_for_task_keys (task : Task) (b : Builder) :
  keys_given b -> keys_given (_generate_events_for_task task b).
Proof.
  intros Hk. unfold _generate_events_for_task.
  set (ids0 := if decide (is_Some (task_mappings b !! id task))
               then dd_get (task_mappings b) (id task) else ∅).
  assert (forall ps acc, keys_given acc.1 ->
            keys_given (foldl (notify_person task) acc ps).1) as Hloop.
  { induction ps as [|p ps IH]; intros acc Hacc; [done |].
    simpl. apply IH. by apply notify_person_keys. }
  assert (forall ds b0, keys_given b0 ->
            keys_given
              (foldl (fun b d => _delete_event_relationship d (id task) b) b0 ds))
    as Hdel.
  { induction ds as [|d ds IH]; intros b0 Hb0; [done |].
    simpl. apply IH. by apply delete_event_relationship_keys. }
  destruct (_should_create_event_for task).
  - specialize (Hloop (elements (_get_task_persons_ids_to_notify task))
                      (b, ids0) Hk).
    destruct (foldl (notify_person task) (b, ids0) _) as [b1 ids1].
    by apply Hdel.
  - by apply Hdel.
Qed.

(** X2: [_generate_events] keeps the primary keys in order: if the keys of
    the event rows are distinct and below the next key, and the mapping
    tables hold only keys given out, then the same holds after all tasks
    were gone through (so every task meets a builder whose mapped events
    carry keys below the next key). *)
Theorem generate_events_keeps_keys (tasks : list Task) (b : Builder) :
  keys_given b ->
  NoDup (ev_id <$> events (db (_generate_events tasks b)))
  /\ (forall e : CalendarEvent,
        e ∈ events (db (_generate_events tasks b)) ->
        ev_id e < next_event_id (db (_generate_events tasks b)))
  /\ (forall t e : nat,
        e ∈ dd_get (task_mappings (_generate_events tasks b)) t ->
        e < next_event_id (db (_generate_events tasks b)))
  /\ (forall t e : nat,
        t ∈ dd_get (event_mappings (_generate_events tasks b)) e ->
        e < next_event_id (db (_generate_events tasks b))).
Proof.
  unfold _generate_events. revert b.
  induction tasks as [|task tasks IH]; intros b Hk; [exact Hk |].
  simpl. apply IH. by apply generate_events_for_task_keys.
Qed.

Lemma sample_builder_keys : keys_given sample_builder.
Proof.
  pose proof sample_builder_inverse as Hinv.
  assert (forall t e : nat,
            e ∈ dd_get (task_mappings sample_builder) t -> e < 3) as Htm.
  { intros t e. unfold sample_builder, dd_get. simpl.
    destruct (decide (t = 1)) as [->|Ht].
    - rewrite lookup_singleton_eq. simpl.
      intros [->%elem_of_singleton| ->%elem_of_singleton]%elem_of_union; lia.
    - rewrite lookup_singleton_ne by done. simpl. set_solver. }
  split; [| split; [| split]].
  - simpl. repeat constructor; set_solver.
  - intros e He. simpl in He.
    apply elem_of_cons in He as [->|He]; [simpl; lia |].
    apply list_elem_of_singleton in He as ->. simpl. lia.
  - exact Htm.
  - intros t e He. apply Hinv in He. by apply Htm in He.
Qed.

Lemma generate_events_keeps_keys_witness :
  NoDup (ev_id <$> events (db (_generate_events [sample_task] sample_builder))).
Proof.
  refine (proj1 (generate_events_keeps_keys [sample_task] sample_builder _)).
  apply sample_builder_keys.
Defined.

(** *** Event rows along a pass *)

(** From [b] to [b'] event rows were only added, each with the next key. *)
Definition events_added (b b' : Builder) (created : list CalendarEvent) : Prop :=
  events (db b') = events (db b) ++ created
  /\ next_event_id (db b') = next_event_id (db b) + length created.

Lemma events_added_refl (b : Builder) : events_added b b [].
Proof. split; [by rewrite app_nil_r | simpl; lia]. Qed.

Lemma events_added_trans (b1 b2 b3 : Builder) (c1 c2 : list CalendarEvent) :
  events_added b1 b2 c1 -> events_added b2 b3 c2 -> events_added b1 b3 (c1 ++ c2).
Proof.
  intros [H1 N1] [H2 N2]. split.
  - by rewrite H2, H1, app_assoc.
  - rewrite N2, N1, length_app. lia.
Qed.

Lemma delete_loop_events (t : nat) (ds : list nat) (b : Builder) :
  events_added b (foldl (fun b d => _delete_event_relationship d t b) b ds) [].
Proof.
  revert b. induction ds as [|d ds IH]; intros b; [apply events_added_refl |].
  simpl. destruct (delete_event_relationship_db d t b) as (He & Hn & _).
  destruct (IH (_delete_event_relationship d t b)) as [He2 Hn2].
  split; [by rewrite He2, He | by rewrite Hn2, Hn].
Qed.

(** The events one turn of the loop creates: for a person of the task, due
    on its end date. *)
Lemma notify_person_events (task : Task) (acc : Builder * gset nat) (p : nat) :
  exists created : list CalendarEvent,
    events_added acc.1 (notify_person task acc p).1 created
    /\ Forall (fun e => due_date e = end_date task /\ attendee_id e = p) created.
Proof.
  destruct acc as [b ids]. simpl.
  destruct (get_event_by_date_and_attendee (db b) p (end_date task)) as [ev|].
  - exists []. split; [| constructor]. simpl.
    destruct (create_event_relationship_db task ev b) as (He & Hn & _).
    split; [by rewrite He, app_nil_r | rewrite Hn; simpl; lia].
  - eexists [_]. split; [split; [reflexivity | simpl; lia] |].
    by repeat constructor.
Qed.

Lemma notify_loop_events (task : Task) (ps : list nat) (acc : Builder * gset nat) :
  exists created : list CalendarEvent,
    events_added acc.1 (foldl (notify_person task) acc ps).1 created
    /\ Forall (fun e => due_date e = end_date task /\ attendee_id e ∈ ps) created.
Proof.
  revert acc. induction ps as [|p ps IH]; intros acc.
  - exists []. split; [apply events_added_refl | constructor].
  - simpl. destruct (notify_person_events task acc p) as (c1 & Ha1 & Hc1).
    destruct (IH (notify_person task acc p)) as (c2 & Ha2 & Hc2).
    exists (c1 ++ c2). split; [by eapply events_added_trans |].
    apply Forall_app. split.
    + eapply Forall_impl; [exact Hc1 |]. simpl. intros e [Hd ->].
      split; [done | by left].
    + eapply Forall_impl; [exact Hc2 |]. simpl. intros e [Hd Hin].
      split; [done | by right].
Qed.

Lemma generate_events_for_task_events (task : Task) (b : Builder) :
  exists created : list CalendarEvent,
    events_added b (_generate_events_for_task task b) created
    /\ Forall (fun e => _should_create_event_for task = true
                        /\ due_date e = end_date task
                        /\ attendee_id e ∈ _get_task_persons_ids_to_notify task)
              created.
Proof.
  unfold _generate_events_for_task.
  set (ids0 := if decide (is_Some (task_mappings b !! id task))
               then dd_get (task_mappings b) (id task) else ∅).
  destruct (_should_create_event_for task).
  - destruct (notify_loop_events task
                (elements (_get_task_persons_ids_to_notify task)) (b, ids0))
      as (created & Ha & Hc).
    destruct (foldl (notify_person task) (b, ids0) _) as [b1 ids1].
    exists created. split.
    + rewrite <- (app_nil_r created).
      eapply events_added_trans; [exact Ha | apply delete_loop_events].
    + eapply Forall_impl; [exact Hc |]. simpl. intros e [Hd Hin].
      split; [done |]. split; [done |]. by apply elem_of_elements.
  - exists []. split; [apply delete_loop_events | constructor].
Qed.

(** X3: [_generate_events] never removes or changes an event row: the rows
    there were stay in place and new ones are appended, the key counter
    advancing by one per new row; and every new event is due on the end date
    of one of the tasks, which is eligible, and has one of the persons to
    notify of that task as attendee. *)
Theorem generate_events_appends_events (tasks : list Task) (b : Builder) :
  exists created : list CalendarEvent,
    events (db (_generate_events tasks b)) = events (db b) ++ created
    /\ next_event_id (db (_generate_events tasks b))
       = next_event_id (db b) + length created
    /\ Forall (fun e =>
                 exists task : Task,
                   task ∈ tasks
                   /\ _should_create_event_for task = true
                   /\ due_date e = end_date task
                   /\ attendee_id e ∈ _get_task_persons_ids_to_notify task)
              created.
Proof.
  unfold _generate_events. revert b.
  induction tasks as [|task tasks IH]; intros b.
  - exists []. simpl. rewrite app_nil_r. repeat split; [lia | constructor].
  - simpl.
    destruct (generate_events_for_task_events task b) as (c1 & [He1 Hn1] & Hc1).
    destruct (IH (_generate_events_for_task task b)) as (c2 & He2 & Hn2 & Hc2).
    exists (c1 ++ c2). split; [by rewrite He2, He1, app_assoc |].
    split; [rewrite Hn2, Hn1, length_app; lia |].
    apply Forall_app. split.
    + eapply Forall_impl; [exact Hc1 |]. simpl. intros e (H1 & H2 & H3).
      exists task. split; [by left | done].
    + eapply Forall_impl; [exact Hc2 |]. simpl.
      intros e (task' & Hin & H). exists task'. split; [by right | done].
Qed.

(** *** A second run *)

(** Every person to notify of the task, if it is eligible, has an event on
    the task's end date. *)
Definition covered (task : Task) (b : Builder) : Prop :=
  _should_create_event_for task = true ->
  forall p : nat, p ∈ _get_task_persons_ids_to_notify task ->
    is_Some (get_event_by_date_and_attendee (db b) p (end_date task)).

Lemma get_event_added (b b' : Builder) (created : list CalendarEvent)
    (p : nat) (d : Z) :
  events (db b') = events (db b) ++ created ->
  is_Some (get_event_by_date_and_attendee (db b) p d) ->
  is_Some (get_event_by_date_and_attendee (db b') p d).
Proof.
  unfold get_event_by_date_and_attendee. intros -> [e He].
  rewrite find_app, He. eauto.
Qed.

Lemma covered_added (task : Task) (b b' : Builder) (created : list CalendarEvent) :
  events (db b') = events (db b) ++ created -> covered task b -> covered task b'.
Proof.
  intros He Hc Hyes p Hp. eapply get_event_added; [exact He |]. by apply Hc.
Qed.

Lemma notify_person_found (task : Task) (acc : Builder * gset nat) (p : nat) :
  is_Some (get_event_by_date_and_attendee (db (notify_person task acc p).1) p
             (end_date task)).
Proof.
  destruct acc as [b ids]. simpl.
  destruct (get_event_by_date_and_attendee (db b) p (end_date task))
    as [ev|] eqn:Hlook; simpl.
  - destruct (create_event_relationship_db task ev b) as (He & _).
    unfold get_event_by_date_and_attendee in *. rewrite He, Hlook. eauto.
  - unfold get_event_by_date_and_attendee in *. simpl.
    rewrite find_app, Hlook. simpl.
    rewrite !bool_decide_eq_true_2 by done. simpl. eauto.
Qed.

Lemma notify_loop_found (task : Task) (ps : list nat) (acc : Builder * gset nat)
    (p : nat) :
  p ∈ ps ->
  is_Some (get_event_by_date_and_attendee
             (db (foldl (notify_person task) acc ps).1) p (end_date task)).
Proof.
  revert acc. induction ps as [|q ps IH]; intros acc Hp.
  - by apply elem_of_nil in Hp.
  - simpl. destruct (decide (p ∈ ps)) as [Hin|Hnin]; [by apply IH |].
    apply elem_of_cons in Hp as [->|Hp]; [| done].
    destruct (notify_loop_events task ps (notify_person task acc q))
      as (created & [He _] & _).
    eapply get_event_added; [exact He |]. apply notify_person_found.
Qed.

Lemma generate_events_for_task_covers (task : Task) (b : Builder) :
  covered task (_generate_events_for_task task b).
Proof.
  intros Hyes p Hp. unfold _generate_events_for_task. rewrite Hyes.
  set (ids0 := if decide (is_Some (task_mappings b !! id task))
               then dd_get (task_mappings b) (id task) else ∅).
  pose proof (notify_loop_found task
                (elements (_get_task_persons_ids_to_notify task)) (b, ids0) p)
    as Hfound.
  destruct (foldl (notify_person task) (b, ids0) _) as [b1 ids1].
  destruct (delete_loop_events (id task) (elements ids1) b1) as [He _].
  eapply get_event_added; [exact He |].
  apply Hfound. by apply elem_of_elements.
Qed.

Lemma notify_loop_no_event (task : Task) (ps : list nat)
    (acc : Builder * gset nat) :
  (forall p : nat, p ∈ ps ->
     is_Some (get_event_by_date_and_attendee (db acc.1) p (end_date task))) ->
  events_added acc.1 (foldl (notify_person task) acc ps).1 [].
Proof.
  revert acc. induction ps as [|p ps IH]; intros acc Hall.
  - apply events_added_refl.
  - simpl.
    assert (events_added acc.1 (notify_person task acc p).1 []) as Hstep.
    { destruct acc as [b ids]. simpl in *.
      destruct (Hall p) as [ev Hev]; [by left |]. rewrite Hev. simpl.
      destruct (create_event_relationship_db task ev b) as (He & Hn & _).
      split; [by rewrite He, app_nil_r | rewrite Hn; simpl; lia]. }
    change (@nil CalendarEvent) with (@nil CalendarEvent ++ []).
    eapply events_added_trans; [exact Hstep |].
    apply IH. intros q Hq.
    eapply get_event_added; [apply Hstep |]. apply Hall. by right.
Qed.

Lemma generate_events_for_task_no_event (task : Task) (b : Builder) :
  covered task b -> events_added b (_generate_events_for_task task b) [].
Proof.
  intros Hc. unfold _generate_events_for_task.
  set (ids0 := if decide (is_Some (task_mappings b !! id task))
               then dd_get (task_mappings b) (id task) else ∅).
  destruct (_should_create_event_for task) eqn:Hyes.
  - pose proof (notify_loop_no_event task
                  (elements (_get_task_persons_ids_to_notify task)) (b, ids0))
      as Hloop.
    destruct (foldl (notify_person task) (b, ids0) _) as [b1 ids1].
    change (@nil CalendarEvent) with (@nil CalendarEvent ++ []).
    eapply events_added_trans; [| apply delete_loop_events].
    apply Hloop. intros p Hp. apply Hc; [done |]. by apply elem_of_elements.
  - apply delete_loop_events.
Qed.

Lemma generate_events_added (tasks : list Task) (b : Builder) :
  exists created : list CalendarEvent,
    events_added b (_generate_events tasks b) created.
Proof.
  unfold _generate_events. revert b.
  induction tasks as [|task tasks IH]; intros b.
  - exists []. apply events_added_refl.
  - simpl. destruct (generate_events_for_task_events task b) as (c1 & H1 & _).
    destruct (IH (_generate_events_for_task task b)) as (c2 & H2).
    exists (c1 ++ c2). by eapply events_added_trans.
Qed.

Lemma generate_events_covers (tasks : list Task) (b : Builder) :
  Forall (fun task => covered task (_generate_events tasks b)) tasks.
Proof.
  revert b. induction tasks as [|task tasks IH]; intros b; [constructor |].
  constructor; [| apply (IH (_generate_events_for_task task b))].
  destruct (generate_events_added tasks (_generate_events_for_task task b))
    as (c & [He _]).
  eapply covered_added; [exact He |]. apply generate_events_for_task_covers.
Qed.

Lemma generate_events_no_event (tasks : list Task) (b : Builder) :
  Forall (fun task => covered task b) tasks ->
  events_added b (_generate_events tasks b) [].
Proof.
  unfold _generate_events. revert b.
  induction tasks as [|task tasks IH]; intros b Hall.
  - apply events_added_refl.
  - apply Forall_cons in Hall as [Hc Hall]. simpl.
    pose proof (generate_events_for_task_no_event task b Hc) as Hstep.
    change (@nil CalendarEvent) with (@nil CalendarEvent ++ []).
    eapply events_added_trans; [exact Hstep |].
    apply IH. eapply Forall_impl; [exact Hall |]. simpl.
    intros t Ht. eapply covered_added; [apply Hstep | exact Ht].
Qed.

(** X4: a second run of [_generate_events] over the same tasks creates no
    event: the event rows and the key counter are after it what they were
    after the first run. *)
Theorem generate_events_twice_no_new_event (tasks : list Task) (b : Builder) :
  events (db (_generate_events tasks (_generate_events tasks b)))
  = events (db (_generate_events tasks b))
  /\ next_event_id (db (_generate_events tasks (_generate_events tasks b)))
     = next_event_id (db (_generate_events tasks b)).
Proof.
  destruct (generate_events_no_event tasks (_generate_events tasks b)
              (generate_events_covers tasks b)) as [He Hn].
  split; [by rewrite He, app_nil_r | rewrite Hn; simpl; lia].
Qed.

(** *** Unmapping *)

Lemma delete_event_relationship_found (d t : nat) (b : Builder) :
  is_Some (get_relationship (db b) d EVENT_MODEL t TASK_MODEL) ->
  (d ∉ dd_get (task_mappings (_delete_event_relationship d t b)) t)
  /\ (t ∉ dd_get (event_mappings (_delete_event_relationship d t b)) d).
Proof.
  intros [r Hr]. unfold _delete_event_relationship. rewrite Hr. simpl.
  rewrite !dd_get_discard, !decide_True by done. set_solver.
Qed.

Lemma delete_event_relationship_missing (d t : nat) (b : Builder) :
  get_relationship (db b) d EVENT_MODEL t TASK_MODEL = None ->
  _delete_event_relationship d t b = b.
Proof. intros Hr. unfold _delete_event_relationship. by rewrite Hr. Qed.

Lemma delete_event_relationship_subseteq (d t : nat) (b : Builder) (t' e' : nat) :
  dd_get (task_mappings (_delete_event_relationship d t b)) t'
    ⊆ dd_get (task_mappings b) t'
  /\ dd_get (event_mappings (_delete_event_relationship d t b)) e'
       ⊆ dd_get (event_mappings b) e'.
Proof.
  unfold _delete_event_relationship.
  destruct (get_relationship _ _ _ _ _); [| done]. simpl.
  rewrite !dd_get_discard.
  destruct (decide (t = t')) as [->|], (decide (d = e')) as [->|]; set_solver.
Qed.

Lemma delete_event_relationship_other (d t : nat) (b : Builder) (e : nat) :
  e <> d ->
  (e ∈ dd_get (task_mappings b) t ->
   e ∈ dd_get (task_mappings (_delete_event_relationship d t b)) t)
  /\ link_count (db (_delete_event_relationship d t b)) e t
     = link_count (db b) e t.
Proof.
  intros Hne. split.
  - unfold _delete_event_relationship.
    destruct (get_relationship _ _ _ _ _); [| done]. simpl.
    rewrite dd_get_discard, decide_True by done. set_solver.
  - destruct (delete_event_relationship_db d t b) as (_ & _ & Hc & _).
    by rewrite Hc, decide_False.
Qed.

Lemma delete_loop_subseteq (t : nat) (ds : list nat) (b : Builder) (t' e' : nat) :
  dd_get (task_mappings
            (foldl (fun b d => _delete_event_relationship d t b) b ds)) t'
    ⊆ dd_get (task_mappings b) t'
  /\ dd_get (event_mappings
               (foldl (fun b d => _delete_event_relationship d t b) b ds)) e'
       ⊆ dd_get (event_mappings b) e'.
Proof.
  revert b. induction ds as [|d ds IH]; intros b; [done |].
  simpl. destruct (IH (_delete_event_relationship d t b)) as [H1 H2].
  destruct (delete_event_relationship_subseteq d t b t' e') as [G1 G2].
  split; set_solver.
Qed.

Lemma delete_loop_unmaps (t : nat) (ds : list nat) (b : Builder) (e : nat) :
  e ∈ ds ->
  is_Some (get_relationship (db b) e EVENT_MODEL t TASK_MODEL) ->
  (e ∉ dd_get (task_mappings
                 (foldl (fun b d => _delete_event_relationship d t b) b ds)) t)
  /\ (t ∉ dd_get (event_mappings
                    (foldl (fun b d => _delete_event_relationship d t b) b ds)) e).
Proof.
  revert b. induction ds as [|d ds IH]; intros b Hin Hrel.
  - by apply elem_of_nil in Hin.
  - simpl. destruct (decide (e = d)) as [->|Hne].
    + destruct (delete_event_relationship_found d t b Hrel) as [H1 H2].
      destruct (delete_loop_subseteq t ds (_delete_event_relationship d t b) t d)
        as [G1 G2].
      split; set_solver.
    + apply elem_of_cons in Hin as [->|Hin]; [done |].
      apply IH; [done |].
      apply link_count_pos. apply link_count_pos in Hrel.
      destruct (delete_event_relationship_other d t b e Hne) as [_ ->]. done.
Qed.

Lemma delete_loop_keeps_stale (t : nat) (ds : list nat) (b : Builder) (e : nat) :
  get_relationship (db b) e EVENT_MODEL t TASK_MODEL = None ->
  e ∈ dd_get (task_mappings b) t ->
  e ∈ dd_get (task_mappings
                (foldl (fun b d => _delete_event_relationship d t b) b ds)) t.
Proof.
  revert b. induction ds as [|d ds IH]; intros b Hnone Hin; [done |].
  simpl. destruct (decide (e = d)) as [->|Hne].
  - rewrite delete_event_relationship_missing by done. by apply IH.
  - destruct (delete_event_relationship_other d t b e Hne) as [Hk Hc].
    apply IH; [| by apply Hk].
    destruct (get_relationship (db (_delete_event_relationship d t b)) e
                EVENT_MODEL t TASK_MODEL) eqn:Hget; [| done].
    assert (0 < link_count (db (_delete_event_relationship d t b)) e t) as Hpos.
    { apply link_count_pos. by rewrite Hget. }
    rewrite Hc, (link_count_zero _ _ _ Hnone) in Hpos. lia.
Qed.

Lemma notify_loop_mappings (s0 : Session) (task : Task) (ps : list nat)
    (acc : Builder * gset nat) (t : nat) :
  dd_get (task_mappings acc.1) t
    ⊆ dd_get (task_mappings (foldl (notify_person_at s0 task) acc ps).1) t.
Proof.
  revert acc. induction ps as [|p ps IH]; intros acc; [done |].
  simpl. etrans; [| apply IH].
  unfold notify_person_at.
  destruct (get_event_by_date_and_attendee s0 p (end_date task)) as [ev|]; simpl.
  - unfold _create_event_relationship.
    destruct (get_relationship _ _ _ _ _); [done |]. simpl.
    rewrite dd_get_add. destruct (decide (id task = t)) as [->|]; set_solver.
  - rewrite dd_get_add. destruct (decide (id task = t)) as [->|]; set_solver.
Qed.

(** X5: for an event whose relationship to the task
    [_generate_events_for_task] is to delete: when the relationship row
    exists, the event is afterwards mapped to the task in neither table;
    when no such row exists (and the event's key was given out before),
    nothing is deleted and the event stays in [task_mappings[task.id]]. *)
Theorem generate_events_for_task_unmaps (task : Task) (b : Builder) (e : nat) :
  e ∈ to_delete task b ->
  (is_Some (get_relationship (db b) e EVENT_MODEL (id task) TASK_MODEL) ->
   (e ∉ dd_get (task_mappings (_generate_events_for_task task b)) (id task))
   /\ (id task ∉ dd_get (event_mappings (_generate_events_for_task task b)) e))
  /\ (get_relationship (db b) e EVENT_MODEL (id task) TASK_MODEL = None ->
      e < next_event_id (db b) ->
      e ∈ dd_get (task_mappings (_generate_events_for_task task b)) (id task)
      /\ link_count (db (_generate_events_for_task task b)) e (id task) = 0).
Proof.
  rewrite generate_events_for_task_eq, to_delete_eq. intros He.
  destruct (notify_loop_spec (db b) task (notified task)
              (b, dd_get (task_mappings b) (id task)))
    as (Hids & created & added & Hev & Hrel & Hcr & Hadd & Hps).
  pose proof (notify_loop_mappings (db b) task (notified task)
                (b, dd_get (task_mappings b) (id task)) (id task)) as Hmono.
  revert Hids Hev Hrel Hcr Hadd Hps Hmono.
  generalize (foldl (notify_person_at (db b) task)
                (b, dd_get (task_mappings b) (id task)) (notified task)).
  intros res. simpl. intros Hids Hev Hrel Hcr Hadd Hps Hmono.
  split.
  - intros Hsome. apply delete_loop_unmaps.
    + apply elem_of_elements. by rewrite Hids.
    + by eapply get_relationship_app.
  - intros Hnone Hkey.
    assert (link_count (db res.1) e (id task) = 0) as Hzero.
    { rewrite (link_count_app (db b) (db res.1) added) by done.
      rewrite (link_count_zero _ _ _ Hnone).
      rewrite filter_all_false; [done |].
      eapply Forall_impl; [exact Hadd |]. simpl.
      intros r (e' & -> & Hcase).
      destruct (links e EVENT_MODEL (id task) TASK_MODEL (Relationship_of task e'))
        eqn:Hl; [| done].
      apply links_Relationship_of in Hl as [<- _].
      apply elem_of_difference in He as [_ Hnot].
      destruct Hcase as [Hge|Hre]; [lia |].
      destruct Hnot. by apply elem_of_list_to_set. }
    assert (get_relationship (db res.1) e EVENT_MODEL (id task) TASK_MODEL = None)
      as Hnone1.
    { destruct (get_relationship (db res.1) e EVENT_MODEL (id task) TASK_MODEL)
        eqn:Hget; [| done].
      assert (0 < link_count (db res.1) e (id task)) as Hpos.
      { apply link_count_pos. by rewrite Hget. }
      lia. }
    split.
    + apply delete_loop_keeps_stale; [done |].
      apply Hmono. by apply elem_of_difference in He as [He _].
    + destruct (delete_loop_db (id task) (elements res.2) res.1)
        as (_ & Hc & _); [apply NoDup_elements |].
      rewrite Hc, Hzero. by destruct (decide _).
Qed.

Lemma generate_events_for_task_unmaps_witness :
  (2 ∉ dd_get (task_mappings (_generate_events_for_task sample_task sample_builder))
              (id sample_task))
  /\ (id sample_task
      ∉ dd_get (event_mappings (_generate_events_for_task sample_task sample_builder))
               2).
Proof.
  refine (proj1 (generate_events_for_task_unmaps sample_task sample_builder 2 _) _).
  - by vm_compute.
  - vm_compute. eauto.
Defined.

End CalendarPass.

(** ** The calendar event builder: descriptions *)

Module CalendarDescriptions.
Import Calendar CalendarFacts.

Definition newline : string := String (ascii_of_nat 10) EmptyString.

Definition TASK_DESCRIPTION_HEADER : string :=
  String.append "You have due tasks for today." newline.

(** [TASK_DESCRIPTION_SUMMARY.format(link=link)] *)
Definition TASK_DESCRIPTION_SUMMARY (link : string) : string :=
  String.append
    "Please click on the link below to review and take action on your task(s) due today."
    (String.append newline
       (String.append "<a href='" (String.append link "'>Link</a>"))).

Section Descriptions.

(** [due_date.strftime('%m/%d/%Y')] and [utils.get_active_cycle_tasks_url]
    are not under src/: parameters. *)
Variable strftime : Z -> string.
Variable get_active_cycle_tasks_url : string -> string.

(** [_generate_description_for_event]: the description the event is given;
    [tasks] is [self.tasks].  Titles are taken as ASCII text, which formats
    and concatenates without error whatever the string type; the encoding
    error of other titles is not modelled. *)
Definition _generate_description_for_event (tasks : list Task)
    (event : CalendarEvent) (task_ids : gset nat) : string :=
  let titles :=
    (fun task => String.append "- " (title task))
      <$> filter (fun task => id task ∈ task_ids) tasks in
  String.append TASK_DESCRIPTION_HEADER
    (String.append (String.concat newline titles)
       (String.append newline
          (TASK_DESCRIPTION_SUMMARY
             (get_active_cycle_tasks_url (strftime (due_date event)))))).

(** [_generate_event_descriptions].  The description column of the events
    table is kept by primary key: [descriptions !! k] is the description of
    the event with key [k]. *)
Definition _generate_event_descriptions (tasks : list Task) (b : Builder)
    (descriptions : gmap nat string) : gmap nat string :=
  foldl (fun descriptions event =>
           if decide (is_Some (event_mappings b !! ev_id event))
           then
             let task_ids := dd_get (event_mappings b) (ev_id event) in
             <[ev_id event :=
                 _generate_description_for_event tasks event task_ids]>
               descriptions
           else descriptions)
        descriptions (events (db b)).

Lemma descriptions_skipped (tasks : list Task) (em : gmap nat (gset nat))
    (l : list CalendarEvent) (descriptions : gmap nat string) (k : nat) :
  (forall event : CalendarEvent,
     event ∈ l -> ev_id event = k -> em !! k = None) ->
  foldl (fun descriptions event =>
           if decide (is_Some (em !! ev_id event))
           then <[ev_id event :=
                    _generate_description_for_event tasks event
                      (dd_get em (ev_id event))]> descriptions
           else descriptions)
        descriptions l !! k
  = descriptions !! k.
Proof.
  revert descriptions. induction l as [|x l IH]; intros descriptions Hno; [done |].
  simpl. rewrite IH.
  - destruct (decide (is_Some (em !! ev_id x))) as [[v Hv]|]; [| done].
    rewrite lookup_insert_ne; [done |].
    intros Heq. rewrite Heq in Hv. rewrite (Hno x) in Hv; [done | by left | done].
  - intros event Hin. apply Hno. by right.
Qed.

Lemma descriptions_written (tasks : list Task) (em : gmap nat (gset nat))
    (l : list CalendarEvent) (descriptions : gmap nat string)
    (event : CalendarEvent) :
  NoDup (ev_id <$> l) ->
  event ∈ l ->
  is_Some (em !! ev_id event) ->
  foldl (fun descriptions event =>
           if decide (is_Some (em !! ev_id event))
           then <[ev_id event :=
                    _generate_description_for_event tasks event
                      (dd_get em (ev_id event))]> descriptions
           else descriptions)
        descriptions l !! ev_id event
  = Some (_generate_description_for_event tasks event (dd_get em (ev_id event))).
Proof.
  revert descriptions. induction l as [|x l IH]; intros descriptions Hnd Hin Hkey.
  - by apply elem_of_nil in Hin.
  - rewrite fmap_cons in Hnd. apply NoDup_cons in Hnd as [Hx Hnd].
    simpl. apply elem_of_cons in Hin as [->|Hin].
    + rewrite decide_True by done.
      rewrite descriptions_skipped; [by rewrite lookup_insert_eq |].
      intros event Hev Heq. destruct Hx.
      apply list_elem_of_fmap. by exists event.
    + by apply IH.
Qed.


Lemma filter_no_task (tasks : list Task) (task_ids : gset nat) :
  task_ids = ∅ -> filter (fun task => id task ∈ task_ids) tasks = [].
Proof.
  intros ->. induction tasks as [|task tasks IH]; [done |].
  rewrite filter_cons, decide_False by set_solver. done.
Qed.


End Descriptions.

(** A date format and a link for examples. *)
Definition sample_strftime (d : Z) : string := pretty d.
Definition sample_url (due : string) : string :=
  String.append "/dashboard#!task&due_date=" due.



(** The description of event 1 of the sample builder lists the sample
    task. *)
Example generate_event_descriptions_sample :
  _generate_event_descriptions sample_strftime sample_url [sample_task]
    sample_builder ∅ !! 1
  = Some (String.append "You have due tasks for today."
            (String.append newline
               (String.append "- Review controls"
                  (String.append newline
                     (TASK_DESCRIPTION_SUMMARY
                        "/dashboard#!task&due_date=20180301"))))).
Proof. by vm_compute. Qed.

End CalendarDescriptions.

(** ** The export converter: queries and block converters *)

Module ExportMore.
Import Py Converters ConvertersFacts.

(** *** [_get_exportable_queries] *)

Lemma omap_enumerate_sublist {A} (keep : nat -> bool) (start : nat) (l : list A) :
  sublist (omap (fun '(index, x) => if keep index then Some x else None)
                (enumerate_from start l)) l.
Proof.
  revert start. induction l as [|x l IH]; intros start; simpl.
  - constructor.
  - destruct (keep start); [by constructor | constructor; apply IH].
Qed.

Lemma omap_enumerate_ext {A} (keep keep' : nat -> bool) (start : nat) (l : list A) :
  (forall i : nat, start <= i < start + length l -> keep i = keep' i) ->
  omap (fun '(index, x) => if keep index then Some x else None)
       (enumerate_from start l)
  = omap (fun '(index, x) => if keep' index then Some x else None)
         (enumerate_from start l).
Proof.
  revert start. induction l as [|x l IH]; intros start Hext; [done |].
  simpl. rewrite (Hext start) by (simpl; lia).
  rewrite IH; [done |]. intros i Hi. apply Hext. simpl. lia.
Qed.

Lemma get_exportable_queries_omap (c : ExportConverter) (z : Z) (zs : list Z) :
  exportable_queries c = z :: zs ->
  _get_exportable_queries c
  = omap (fun '(index, x) =>
            if bool_decide (Z.of_nat index ∈ z :: zs) then Some x else None)
         (enumerate_from 0 (ids_by_type c)).
Proof.
  intros Hq. unfold _get_exportable_queries, enumerate. rewrite Hq.
  apply list_omap_ext, Forall2_same_length_lookup. split; [done |].
  intros i [j x] [j' x'] H1 H2. rewrite H1 in H2. injection H2 as <- <-.
  simpl. destruct (decide (Z.of_nat j ∈ z :: zs)).
  - by rewrite bool_decide_eq_true_2.
  - by rewrite bool_decide_eq_false_2.
Qed.

(** X8: what [_get_exportable_queries] returns is a sublist of
    [ids_by_type]: queries are dropped, never added, repeated or
    reordered. *)
Theorem get_exportable_queries_sublist (c : ExportConverter) :
  sublist (_get_exportable_queries c) (ids_by_type c).
Proof.
  destruct (exportable_queries c) as [|z zs] eqn:Hq.
  - unfold _get_exportable_queries. by rewrite Hq.
  - rewrite (get_exportable_queries_omap c z zs Hq).
    apply (omap_enumerate_sublist
             (fun i => bool_decide (Z.of_nat i ∈ z :: zs))).
Qed.

(** X9: for non-empty index lists, [_get_exportable_queries] depends only
    on which indexes occur in [exportable_queries]: two converters with the
    same [ids_by_type] whose index lists have the same elements (in any
    order, with any repetition) select the same queries. *)
Theorem get_exportable_queries_set_of_indexes (c c' : ExportConverter) :
  ids_by_type c = ids_by_type c' ->
  exportable_queries c <> [] ->
  exportable_queries c' <> [] ->
  (forall z : Z, z ∈ exportable_queries c <-> z ∈ exportable_queries c') ->
  _get_exportable_queries c = _get_exportable_queries c'.
Proof.
  intros Hids Hne Hne' Hsame.
  destruct (exportable_queries c) as [|z zs] eqn:Hq; [done |].
  destruct (exportable_queries c') as [|z' zs'] eqn:Hq'; [done |].
  rewrite (get_exportable_queries_omap c z zs Hq).
  rewrite (get_exportable_queries_omap c' z' zs' Hq'), <- Hids.
  apply (omap_enumerate_ext
           (fun i => bool_decide (Z.of_nat i ∈ z :: zs))
           (fun i => bool_decide (Z.of_nat i ∈ z' :: zs'))).
  intros i _. apply bool_decide_ext, Hsame.
Qed.

Lemma get_exportable_queries_set_of_indexes_witness :
  _get_exportable_queries
    {| exportable := sample_exportables; block_converters := [];
       ids_by_type := sample_queries; exportable_queries := [1; 0; 1]%Z |}
  = _get_exportable_queries
      {| exportable := sample_exportables; block_converters := [];
         ids_by_type := sample_queries; exportable_queries := [0; 1]%Z |}.
Proof.
  apply (get_exportable_queries_set_of_indexes
           {| exportable := sample_exportables; block_converters := [];
              ids_by_type := sample_queries; exportable_queries := [1; 0; 1]%Z |}
           {| exportable := sample_exportables; block_converters := [];
              ids_by_type := sample_queries; exportable_queries := [0; 1]%Z |}).
  - reflexivity.
  - discriminate.
  - discriminate.
  - intros z. simpl. set_solver.
Defined.

(** X10: indexes that are negative or not below the length of
    [ids_by_type] select nothing: a non-empty [exportable_queries] with only
    such indexes gives the empty list (where an empty [exportable_queries]
    gives all of [ids_by_type]). *)
Theorem get_exportable_queries_out_of_range (c : ExportConverter) :
  exportable_queries c <> [] ->
  (forall z : Z, z ∈ exportable_queries c ->
     (z < 0 \/ Z.of_nat (length (ids_by_type c)) <= z)%Z) ->
  _get_exportable_queries c = [].
Proof.
  intros Hne Hout.
  destruct (exportable_queries c) as [|z zs] eqn:Hq; [done |].
  rewrite (get_exportable_queries_omap c z zs Hq).
  rewrite (omap_enumerate_ext _ (fun _ => false)).
  - clear Hout. generalize 0.
    induction (ids_by_type c) as [|x l IH]; intros n; [done |].
    simpl. apply IH.
  - intros i Hi. apply bool_decide_eq_false_2. intros Hin.
    specialize (Hout _ Hin). lia.
Qed.

Lemma get_exportable_queries_out_of_range_witness :
  _get_exportable_queries
    {| exportable := sample_exportables; block_converters := [];
       ids_by_type := sample_queries; exportable_queries := [-1; 2]%Z |}
  = [].
Proof.
  apply (get_exportable_queries_out_of_range
           {| exportable := sample_exportables; block_converters := [];
              ids_by_type := sample_queries; exportable_queries := [-1; 2]%Z |}).
  - discriminate.
  - intros z Hz. simpl in *.
    apply elem_of_cons in Hz as [->|Hz]; [lia |].
    apply list_elem_of_singleton in Hz as ->. lia.
Defined.

(** *** [initialize_block_converters] of the export *)

(** The dict [object_map] of [initialize_block_converters]: the registered
    classes by their [__name__]. *)
Definition object_map_of (ex : gmap string ObjectClass) : gmap string ObjectClass :=
  list_to_map (reverse ((fun o => (cls_name o, o)) <$> (snd <$> map_to_list ex))).

(** The class is one of the registered exportables. *)
Definition registered (ex : gmap string ObjectClass) (o : ObjectClass) : Prop :=
  exists key : string, ex !! key = Some o.

Lemma object_map_Some (ex : gmap string ObjectClass) (n : string)
    (o : ObjectClass) :
  object_map_of ex !! n = Some o -> cls_name o = n /\ registered ex o.
Proof.
  unfold object_map_of. intros H%elem_of_list_to_map_2.
  apply elem_of_reverse, list_elem_of_fmap in H as (o' & Heq & Hin).
  injection Heq as -> ->. split; [done |].
  apply list_elem_of_fmap in Hin as ([k o''] & -> & Hin).
  exists k. by apply elem_of_map_to_list.
Qed.

Lemma object_map_registered (ex : gmap string ObjectClass) (o : ObjectClass) :
  registered ex o -> is_Some (object_map_of ex !! cls_name o).
Proof.
  intros [k Hk]. unfold object_map_of.
  destruct (list_to_map _ !! cls_name o) eqn:Hl; [eauto |].
  apply not_elem_of_list_to_map_2 in Hl. destruct Hl.
  apply list_elem_of_fmap. exists (cls_name o, o). split; [done |].
  apply elem_of_reverse, list_elem_of_fmap. exists o. split; [done |].
  apply list_elem_of_fmap. exists (k, o). split; [done |].
  by apply elem_of_map_to_list.
Qed.

(** The converter with other block converters. *)
Definition with_blocks (c : ExportConverter) (bcs : list BlockConverter)
    : ExportConverter :=
  {| exportable := exportable c;
     block_converters := bcs;
     ids_by_type := ids_by_type c;
     exportable_queries := exportable_queries c |}.

(** A query that makes the loop raise KeyError: it has no "object_name", or
    no registered class has that name. *)
Definition unknown_query (ex : gmap string ObjectClass) (q : ObjectQuery) : Prop :=
  match object_name q with
  | None => True
  | Some n => forall o : ObjectClass, registered ex o -> cls_name o <> n
  end.

Section ExportBlocks.

Variable ExportBlockConverter :
  ObjectClass -> Fields -> list nat -> string -> BlockConverter.
Variable SnapshotBlockConverter : list nat -> Fields -> BlockConverter.
Variable get_csv_string : CsvStringBuilder -> string.

(** The block converter made for a query: that of snapshots for the name
    "Snapshot", else that of the registered class of that name; "ids"
    defaults to no id and "fields" to all. *)
Definition block_for (ex : gmap string ObjectClass) (q : ObjectQuery)
    (bc : BlockConverter) : Prop :=
  exists (n : string) (o : ObjectClass),
    object_name q = Some n
    /\ cls_name o = n
    /\ registered ex o
    /\ object_map_of ex !! n = Some o
    /\ bc = if decide (n = "Snapshot")
            then SnapshotBlockConverter (default [] (ids q))
                   (default AllFields (fields q))
            else ExportBlockConverter o (default AllFields (fields q))
                   (default [] (ids q)) n.

Lemma initialize_block_cases (c : ExportConverter) (q : ObjectQuery) :
  (unknown_query (exportable c) q
   /\ initialize_block ExportBlockConverter SnapshotBlockConverter
        (object_map_of (exportable c)) c q = Raise KeyError)
  \/ (exists bc : BlockConverter,
        block_for (exportable c) q bc
        /\ initialize_block ExportBlockConverter SnapshotBlockConverter
             (object_map_of (exportable c)) c q
           = Ok (with_blocks c (block_converters c ++ [bc]))).
Proof.
  unfold initialize_block, unknown_query.
  destruct (object_name q) as [n|] eqn:Hn; simpl; [| by left].
  destruct (object_map_of (exportable c) !! n) as [o|] eqn:Ho; simpl.
  - right. eexists. split; [| reflexivity].
    destruct (object_map_Some _ _ _ Ho) as [Hc Hr].
    exists n, o. rewrite Hn. done.
  - left. split; [| done]. intros o Hr Heq.
    destruct (object_map_registered _ _ Hr) as [o' Ho'].
    rewrite Heq in Ho'. congruence.
Qed.

Lemma block_for_not_unknown (ex : gmap string ObjectClass) (q : ObjectQuery)
    (bc : BlockConverter) :
  block_for ex q bc -> unknown_query ex q -> False.
Proof.
  intros (n & o & Hn & Hc & Hr & _) Hu. unfold unknown_query in Hu.
  rewrite Hn in Hu. by apply (Hu o).
Qed.

Lemma initialize_fold_raise (object_map : gmap string ObjectClass) (e : exn)
    (qs : list ObjectQuery) :
  foldl (fun r object_data =>
           c ← r; initialize_block ExportBlockConverter SnapshotBlockConverter
                    object_map c object_data)
        (Raise e) qs
  = Raise e.
Proof. induction qs as [|q qs IH]; [done | exact IH]. Qed.

Lemma initialize_fold_cases (c : ExportConverter) (qs : list ObjectQuery) :
  (Exists (unknown_query (exportable c)) qs
   /\ foldl (fun r object_data =>
               c0 ← r; initialize_block ExportBlockConverter SnapshotBlockConverter
                         (object_map_of (exportable c)) c0 object_data)
            (Ok c) qs
      = Raise KeyError)
  \/ (exists new : list BlockConverter,
        Forall2 (block_for (exportable c)) qs new
        /\ foldl (fun r object_data =>
                    c0 ← r; initialize_block ExportBlockConverter
                              SnapshotBlockConverter
                              (object_map_of (exportable c)) c0 object_data)
                 (Ok c) qs
           = Ok (with_blocks c (block_converters c ++ new))).
Proof.
  revert c. induction qs as [|q qs IH]; intros c.
  - right. exists []. split; [constructor |].
    simpl. rewrite app_nil_r. by destruct c.
  - simpl foldl. unfold mbind at 2. unfold result_bind.
    destruct (initialize_block_cases c q) as [[Hu ->]|(bc & Hbc & ->)].
    + left. split; [by left | exact (initialize_fold_raise _ _ _)].
    + destruct (IH (with_blocks c (block_converters c ++ [bc])))
        as [[Hu Hr]|(new & Hnew & Hr)];
        change (exportable (with_blocks c (block_converters c ++ [bc])))
          with (exportable c) in *.
      * left. split; [by right | exact Hr].
      * right. exists (bc :: new). split; [by constructor |].
        etrans; [exact Hr |]. unfold with_blocks. simpl.
        by rewrite <- app_assoc.
Qed.

Lemma Forall2_not_Exists (ex : gmap string ObjectClass) (qs : list ObjectQuery)
    (new : list BlockConverter) :
  Forall2 (block_for ex) qs new -> Exists (unknown_query ex) qs -> False.
Proof.
  induction 1 as [|q bc qs new Hq _ IH]; intros Hex.
  - by apply Exists_nil in Hex.
  - apply Exists_cons in Hex as [Hu|Hex]; [| by apply IH].
    by eapply block_for_not_unknown.
Qed.

(** X11: the export's [initialize_block_converters] succeeds exactly when
    every selected query names a registered class, and then appends to
    [block_converters] one block converter per selected query, in order:
    the snapshot block converter for the name "Snapshot", else the export
    block converter of the class of that name, with the query's ids (none
    by default) and fields (all by default). *)
Theorem initialize_block_converters_ok (c c1 : ExportConverter) :
  initialize_block_converters ExportBlockConverter SnapshotBlockConverter c
  = Ok c1
  <-> exists new : list BlockConverter,
        Forall2 (block_for (exportable c)) (_get_exportable_queries c) new
        /\ c1 = with_blocks c (block_converters c ++ new).
Proof.
  unfold initialize_block_converters. fold (object_map_of (exportable c)).
  destruct (initialize_fold_cases c (_get_exportable_queries c))
    as [[Hu ->]|(new & Hnew & ->)].
  - split; [done |]. intros (new & Hnew & _).
    destruct (Forall2_not_Exists _ _ _ Hnew Hu).
  - split.
    + intros [= <-]. by exists new.
    + intros (new' & Hnew' & ->). do 2 f_equal.
      f_equal. clear -Hnew Hnew'.
      revert new' Hnew'. induction Hnew as [|q bc qs new Hq _ IH];
        intros new' Hnew'; inversion Hnew' as [|? bc' ? new'' Hq' Hrest]; subst;
        [done |].
      f_equal; [| by apply IH].
      destruct Hq as (n & o & Hn & _ & _ & Ho & ->).
      destruct Hq' as (n' & o' & Hn' & _ & _ & Ho' & ->).
      rewrite Hn in Hn'. injection Hn' as <-.
      rewrite Ho in Ho'. by injection Ho' as <-.
Qed.

(** X12: when a selected query has no "object_name" or names a class that
    is not registered, [initialize_block_converters] raises KeyError, and
    [export_csv_data], which catches ValueError only, raises it too. *)
Theorem export_csv_data_unknown_object (c : ExportConverter) :
  Exists (unknown_query (exportable c)) (_get_exportable_queries c) ->
  initialize_block_converters ExportBlockConverter SnapshotBlockConverter c
  = Raise KeyError
  /\ export_csv_data ExportBlockConverter SnapshotBlockConverter get_csv_string c
     = Raise KeyError.
Proof.
  intros Hu.
  assert (initialize_block_converters ExportBlockConverter
            SnapshotBlockConverter c = Raise KeyError) as Hinit.
  { unfold initialize_block_converters. fold (object_map_of (exportable c)).
    destruct (initialize_fold_cases c (_get_exportable_queries c))
      as [[_ ->]|(new & Hnew & _)]; [done |].
    destruct (Forall2_not_Exists _ _ _ Hnew Hu). }
  split; [done |]. unfold export_csv_data. by rewrite Hinit.
Qed.

Lemma build_csv_from_row_data_cases (c : ExportConverter) :
  build_csv_from_row_data get_csv_string c = Raise ValueError
  \/ exists csv : string, build_csv_from_row_data get_csv_string c = Ok csv.
Proof.
  unfold build_csv_from_row_data.
  destruct (block_converters c) as [|bc bcs]; [by left |].
  right. rewrite py_max_cons. simpl. eauto.
Qed.

Lemma block_for_fun (ex : gmap string ObjectClass) (qs : list ObjectQuery)
    (new new' : list BlockConverter) :
  Forall2 (block_for ex) qs new -> Forall2 (block_for ex) qs new' -> new = new'.
Proof.
  intros Hnew. revert new'.
  induction Hnew as [|q bc qs new Hq _ IH]; intros new' Hnew';
    inversion Hnew' as [|? bc' ? new'' Hq' Hrest]; subst; [done |].
  f_equal; [| by apply IH].
  destruct Hq as (n & o & Hn & _ & _ & Ho & ->).
  destruct Hq' as (n' & o' & Hn' & _ & _ & Ho' & ->).
  rewrite Hn in Hn'. injection Hn' as <-.
  rewrite Ho in Ho'. by injection Ho' as <-.
Qed.

Lemma initialize_block_converters_again (c c1 : ExportConverter) :
  initialize_block_converters ExportBlockConverter SnapshotBlockConverter c
  = Ok c1 ->
  exists new : list BlockConverter,
    c1 = with_blocks c (block_converters c ++ new)
    /\ forall c' : ExportConverter,
         exportable c' = exportable c ->
         _get_exportable_queries c' = _get_exportable_queries c ->
         initialize_block_converters ExportBlockConverter
           SnapshotBlockConverter c'
         = Ok (with_blocks c' (block_converters c' ++ new)).
Proof.
  unfold initialize_block_converters. fold (object_map_of (exportable c)).
  destruct (initialize_fold_cases c (_get_exportable_queries c))
    as [[_ ->]|(new & Hnew & ->)]; [done |].
  intros [= <-]. exists new. split; [done |].
  intros c' Hex Hq. fold (object_map_of (exportable c')).
  destruct (initialize_fold_cases c' (_get_exportable_queries c'))
    as [[Hu _]|(new' & Hnew' & ->)]; rewrite Hex, Hq in *.
  - destruct (Forall2_not_Exists _ _ _ Hnew Hu).
  - by rewrite (block_for_fun _ _ _ _ Hnew' Hnew).
Qed.

Lemma export_csv_data_initialized (c c1 : ExportConverter) :
  initialize_block_converters ExportBlockConverter SnapshotBlockConverter c
  = Ok c1 ->
  exists csv : string,
    export_csv_data ExportBlockConverter SnapshotBlockConverter get_csv_string c
    = Ok (csv, c1).
Proof.
  intros Hinit. unfold export_csv_data. rewrite Hinit.
  unfold mbind at 1. unfold result_bind at 1.
  destruct (build_csv_from_row_data_cases c1) as [->|[csv ->]]; simpl; eauto.
Qed.

Lemma export_csv_data_returned (c c1 : ExportConverter) (csv : string) :
  export_csv_data ExportBlockConverter SnapshotBlockConverter get_csv_string c
  = Ok (csv, c1) ->
  initialize_block_converters ExportBlockConverter SnapshotBlockConverter c
  = Ok c1.
Proof.
  unfold export_csv_data.
  destruct (initialize_block_converters _ _ c) as [c2|e]; [| done].
  unfold mbind at 1. unfold result_bind at 1.
  destruct (build_csv_from_row_data_cases c2) as [->|[s ->]]; simpl;
    by intros [= _ <-].
Qed.

(** X13: [export_csv_data] adds to the block converters the object holds:
    after a call that returned, a second call on the same object returns
    too and leaves every block converter of the first call there twice. *)
Theorem export_csv_data_twice (c c1 : ExportConverter) (csv : string) :
  export_csv_data ExportBlockConverter SnapshotBlockConverter get_csv_string c
  = Ok (csv, c1) ->
  exists (new : list BlockConverter) (csv2 : string),
    block_converters c1 = block_converters c ++ new
    /\ export_csv_data ExportBlockConverter SnapshotBlockConverter
         get_csv_string c1
       = Ok (csv2, with_blocks c (block_converters c ++ new ++ new)).
Proof.
  intros Hinit%export_csv_data_returned.
  destruct (initialize_block_converters_again c c1 Hinit) as (new & -> & Hagain).
  specialize (Hagain (with_blocks c (block_converters c ++ new)) eq_refl eq_refl).
  destruct (export_csv_data_initialized _ _ Hagain) as [csv2 Hcsv2].
  exists new, csv2. split; [done |].
  rewrite Hcsv2. unfold with_blocks. simpl. by rewrite <- app_assoc.
Qed.

(** X14: the csv of [build_csv_from_row_data] has four lines per block
    converter besides its data rows (two header lines, two empty lines), in
    a table one cell wider than the widest block. *)
Theorem build_csv_from_row_data_line_count (c : ExportConverter)
    (bc : BlockConverter) (bcs : list BlockConverter) :
  block_converters c = bc :: bcs ->
  exists sb : CsvStringBuilder,
    build_csv_from_row_data get_csv_string c = Ok (get_csv_string sb)
    /\ table_width sb = max_block_width (bc :: bcs) + 1
    /\ length (csv_lines_acc sb)
       = sum_list ((fun b => length (generate_row_data b) + 4) <$> bc :: bcs).
Proof.
  intros Hbcs. eexists. split; [| split].
  - unfold build_csv_from_row_data. rewrite Hbcs, py_max_cons.
    simpl mbind. unfold mbind, result_bind.
    change (foldl append_block (append_block ?sb bc) bcs)
      with (foldl append_block sb (bc :: bcs)).
    rewrite append_blocks_layout. reflexivity.
  - done.
  - simpl csv_lines_acc. generalize (max_block_width (bc :: bcs) + 1).
    intros w. generalize (bc :: bcs). clear. intros l.
    unfold export_layout.
    induction l as [|b l IH]; [done |].
    rewrite !fmap_cons. simpl concat. simpl sum_list.
    cbn [length]. rewrite !length_app, IH, length_fmap. simpl. lia.
Qed.

End ExportBlocks.

Lemma export_csv_data_unknown_object_witness :
  export_csv_data sample_block sample_snapshot_block sample_csv_string
    (ExportConverter_init sample_exportables
       [{| object_name := Some "Widget"; ids := None; fields := None |}] None)
  = Raise KeyError.
Proof.
  refine (proj2 (export_csv_data_unknown_object sample_block
                   sample_snapshot_block sample_csv_string _ _)).
  apply Exists_cons_hd. simpl.
  intros o [key Hkey] Hname. unfold sample_exportables in Hkey.
  apply lookup_insert_Some in Hkey as [[_ <-]|[_ Hkey]]; [done |].
  apply lookup_singleton_Some in Hkey as [_ <-]. done.
Defined.

Lemma export_csv_data_twice_witness :
  exists (new : list BlockConverter) (csv2 : string),
    block_converters (ExportConverter_init sample_exportables sample_queries None)
    ++ [sample_block {| cls_name := "Program" |} AllFields [1; 2] "Program";
        sample_snapshot_block [5] AllFields]
    = block_converters (ExportConverter_init sample_exportables sample_queries None)
      ++ new
    /\ export_csv_data sample_block sample_snapshot_block sample_csv_string
         (with_blocks (ExportConverter_init sample_exportables sample_queries None)
            [sample_block {| cls_name := "Program" |} AllFields [1; 2] "Program";
             sample_snapshot_block [5] AllFields])
       = Ok (csv2,
             with_blocks (ExportConverter_init sample_exportables sample_queries None)
               (block_converters
                  (ExportConverter_init sample_exportables sample_queries None)
                ++ new ++ new)).
Proof.
  eapply (export_csv_data_twice sample_block sample_snapshot_block
            sample_csv_string
            (ExportConverter_init sample_exportables sample_queries None)
            (with_blocks (ExportConverter_init sample_exportables sample_queries None)
               [sample_block {| cls_name := "Program" |} AllFields [1; 2] "Program";
                sample_snapshot_block [5] AllFields])).
  by vm_compute.
Defined.

Lemma build_csv_from_row_data_line_count_witness :
  exists sb : CsvStringBuilder,
    build_csv_from_row_data sample_csv_string
      (with_blocks (ExportConverter_init sample_exportables sample_queries None)
         [sample_block {| cls_name := "Program" |} AllFields [1; 2] "Program";
          sample_snapshot_block [5] AllFields])
    = Ok (sample_csv_string sb)
    /\ table_width sb = 3
    /\ length (csv_lines_acc sb) = 11.
Proof.
  apply (build_csv_from_row_data_line_count sample_csv_string
           (with_blocks (ExportConverter_init sample_exportables sample_queries None)
              [sample_block {| cls_name := "Program" |} AllFields [1; 2] "Program";
               sample_snapshot_block [5] AllFields])
           (sample_block {| cls_name := "Program" |} AllFields [1; 2] "Program")
           [sample_snapshot_block [5] AllFields]).
  reflexivity.
Defined.

End ExportMore.

(** ** The import converter: [import_csv_data] *)

Module ImportRun.
Import Py Converters ConvertersFacts.

(** The jobs an import starts: the deferred computation of attributes, the
    background update of issue tracker tickets, the cleaning of memcache. *)
Inductive Job : Type :=
  | ComputeAttributes (revision_ids : list nat) (user_id : nat)
  | IssueTrackerUpdate (revision_ids : list nat) (filename user_email : string)
  | MemcacheClean.

Section ImportCsvData.

Variable CsvLine : Type.
Variable split_blocks :
  list (list string) -> list (nat * list (list string) * list CsvLine).
Variable extract_relevant_data :
  list (list string) -> list string * list (list string).
Variable check_block_restrictions :
  ImportBlockConverter CsvLine -> ImportBlockConverter CsvLine.

(** Of a block converter (ggrc.converters.base_block, not under src/):
    [import_csv_data()], which changes the block converter, its
    [revision_ids] and [get_info()]. *)
Variable Info : Type.
Variable block_import_csv_data :
  ImportBlockConverter CsvLine -> ImportBlockConverter CsvLine.
Variable block_revision_ids : ImportBlockConverter CsvLine -> list nat.
Variable block_get_info : ImportBlockConverter CsvLine -> Info.

(** [settings.ISSUE_TRACKER_ENABLED], [settings.MEMCACHE_MECHANISM], the id
    of [login.get_current_user()], the title of the import job and the
    email of the user. *)
Variable ISSUE_TRACKER_ENABLED : bool.
Variable MEMCACHE_MECHANISM : bool.
Variable current_user_id : nat.
Variable filename : string.
Variable user_email : string.

(** What an import changes: [self.response_data] and the jobs started. *)
Record ImportState := {
  response_data : list Info;
  jobs : list Job;
}.

(** One turn of the loop of [import_csv_data]: the revision ids and the
    response so far. *)
Definition import_block (acc : list nat * list Info)
    (converter : ImportBlockConverter CsvLine) : list nat * list Info :=
  let '(revision_ids, response) := acc in
  let '(converter, revision_ids) :=
    if negb (ignore converter)
    then
      let converter := block_import_csv_data converter in
      (converter, revision_ids ++ block_revision_ids converter)
    else (converter, revision_ids) in
  (revision_ids, response ++ [block_get_info converter]).

Definition _start_compute_attributes_job (revision_ids : list nat) : list Job :=
  match revision_ids with
  | [] => []
  | _ :: _ => [ComputeAttributes revision_ids current_user_id]
  end.

Definition _start_issuetracker_update (revision_ids : list nat) : list Job :=
  [IssueTrackerUpdate revision_ids filename user_email].

Definition drop_cache : list Job :=
  if negb MEMCACHE_MECHANISM then [] else [MemcacheClean].

(** [ImportConverter.import_csv_data]: the state after it and the exception
    that ended it, if the generator of block converters raised one. *)
Definition import_csv_data (c : ImportConverter) (st : ImportState)
    : ImportState * option exn :=
  let '(yielded, raised) :=
    import_initialize_block_converters split_blocks extract_relevant_data
      check_block_restrictions c in
  let '(revision_ids, response) :=
    foldl import_block ([], response_data st) yielded in
  match raised with
  | Some e => ({| response_data := response; jobs := jobs st |}, Some e)
  | None =>
      let started := _start_compute_attributes_job revision_ids in
      let started :=
        started ++
        (if negb (dry_run c) && ISSUE_TRACKER_ENABLED
         then _start_issuetracker_update revision_ids else []) in
      let started := started ++ drop_cache in
      ({| response_data := response; jobs := jobs st ++ started |}, None)
  end.

Lemma import_block_eq (revision_ids : list nat) (response : list Info)
    (converter : ImportBlockConverter CsvLine) :
  import_block (revision_ids, response) converter
  = if ignore converter
    then (revision_ids, response ++ [block_get_info converter])
    else (revision_ids ++ block_revision_ids (block_import_csv_data converter),
          response ++ [block_get_info (block_import_csv_data converter)]).
Proof. unfold import_block. by destruct (ignore converter). Qed.

Lemma import_block_fold (yielded : list (ImportBlockConverter CsvLine))
    (revision_ids : list nat) (response : list Info) :
  exists (new_ids : list nat) (infos : list Info),
    foldl import_block (revision_ids, response) yielded
    = (revision_ids ++ new_ids, response ++ infos)
    /\ length infos = length yielded
    /\ (Forall (fun converter => ignore converter = true) yielded ->
        new_ids = []
        /\ infos = block_get_info <$> yielded).
Proof.
  revert revision_ids response.
  induction yielded as [|converter yielded IH]; intros revision_ids response.
  - exists [], []. by rewrite !app_nil_r.
  - change (foldl import_block (revision_ids, response) (converter :: yielded))
      with (foldl import_block
              (import_block (revision_ids, response) converter) yielded).
    rewrite import_block_eq.
    destruct (ignore converter) eqn:Hig.
    + destruct (IH revision_ids (response ++ [block_get_info converter]))
        as (new_ids & infos & -> & Hlen & Hall).
      exists new_ids, (block_get_info converter :: infos).
      split; [by rewrite <- app_assoc |]. split; [simpl; lia |].
      intros [_ Hrest]%Forall_cons. destruct (Hall Hrest) as [-> ->]. done.
    + destruct (IH (revision_ids
                    ++ block_revision_ids (block_import_csv_data converter))
                   (response
                    ++ [block_get_info (block_import_csv_data converter)]))
        as (new_ids & infos & -> & Hlen & Hall).
      exists (block_revision_ids (block_import_csv_data converter) ++ new_ids),
             (block_get_info (block_import_csv_data converter) :: infos).
      split; [by rewrite <- !app_assoc |]. split; [simpl; lia |].
      intros [Hi _]%Forall_cons. congruence.
Qed.

(** X15: [import_csv_data] starts the update of issue tracker tickets only
    for an import that is no dry run, with the issue tracker enabled, and
    only when every block converter was made: in a dry run no such job is
    ever started. *)
Theorem import_csv_data_issuetracker (c : ImportConverter) (st : ImportState)
    (revision_ids : list nat) (name email : string) :
  IssueTrackerUpdate revision_ids name email
    ∈ jobs (import_csv_data c st).1 ->
  IssueTrackerUpdate revision_ids name email ∈ jobs st
  \/ (dry_run c = false /\ ISSUE_TRACKER_ENABLED = true
      /\ (import_csv_data c st).2 = None).
Proof.
  unfold import_csv_data.
  destruct (import_initialize_block_converters _ _ _ c) as [yielded raised].
  destruct (foldl import_block ([], response_data st) yielded) as [ids response].
  destruct raised as [e|]; simpl; [by left |].
  rewrite !elem_of_app.
  intros [Hin|[[Hin|Hin]|Hin]]; [by left | | |].
  - unfold _start_compute_attributes_job in Hin.
    destruct ids; [by apply elem_of_nil in Hin |].
    by apply list_elem_of_singleton in Hin.
  - right. destruct (dry_run c), ISSUE_TRACKER_ENABLED; simpl in *;
      try (by apply elem_of_nil in Hin). done.
  - unfold drop_cache in Hin. destruct MEMCACHE_MECHANISM; simpl in Hin.
    + by apply list_elem_of_singleton in Hin.
    + by apply elem_of_nil in Hin.
Qed.

(** X16: [import_csv_data] appends to [response_data] one info per block
    converter the generator yielded, ignored ones included; and when the
    generator raises, no job is started at all. *)
Theorem import_csv_data_response (c : ImportConverter) (st : ImportState) :
  exists infos : list Info,
    response_data (import_csv_data c st).1 = response_data st ++ infos
    /\ length infos
       = length (import_initialize_block_converters split_blocks
                   extract_relevant_data check_block_restrictions c).1
    /\ (import_csv_data c st).2
       = (import_initialize_block_converters split_blocks
            extract_relevant_data check_block_restrictions c).2
    /\ (is_Some (import_csv_data c st).2 ->
        jobs (import_csv_data c st).1 = jobs st).
Proof.
  unfold import_csv_data.
  destruct (import_initialize_block_converters _ _ _ c) as [yielded raised].
  destruct (import_block_fold yielded [] (response_data st))
    as (new_ids & infos & -> & Hlen & _).
  exists infos. destruct raised as [e|]; simpl.
  - done.
  - repeat split; [done |]. by intros [? ?].
Qed.

(** X17: when every block converter is ignored (or there is none),
    [import_csv_data] imports no block, so there is no revision id and the
    computation of attributes is not deferred: the only jobs started are
    the issue tracker update (with no revision id) when that applies, and
    the cleaning of memcache when memcache is in use. *)
Theorem import_csv_data_all_ignored (c : ImportConverter) (st : ImportState)
    (yielded : list (ImportBlockConverter CsvLine)) :
  import_initialize_block_converters split_blocks extract_relevant_data
    check_block_restrictions c = (yielded, None) ->
  Forall (fun converter => ignore converter = true) yielded ->
  import_csv_data c st
  = ({| response_data := response_data st ++ (block_get_info <$> yielded);
        jobs := jobs st
                ++ (if negb (dry_run c) && ISSUE_TRACKER_ENABLED
                    then [IssueTrackerUpdate [] filename user_email] else [])
                ++ (if MEMCACHE_MECHANISM then [MemcacheClean] else []) |},
     None).
Proof.
  intros Hy Hall. unfold import_csv_data. rewrite Hy.
  destruct (import_block_fold yielded [] (response_data st))
    as (new_ids & infos & -> & _ & Hig).
  destruct (Hig Hall) as [-> ->]. simpl.
  unfold drop_cache, _start_issuetracker_update.
  by destruct MEMCACHE_MECHANISM.
Qed.

End ImportCsvData.

Arguments response_data {Info} _.
Arguments jobs {Info} _.
Arguments Build_ImportState {Info} _ _.

(** An import that is no dry run, and a check that ignores every block. *)
Definition sample_real_import : ImportConverter :=
  {| import_exportable := sample_exportables;
     dry_run := false;
     csv_data := csv_data (sample_import " Program ") |}.

Definition sample_ignore (bc : ImportBlockConverter nat)
    : ImportBlockConverter nat :=
  {| object_class := object_class bc; rows := rows bc;
     raw_headers := raw_headers bc; offset := offset bc;
     class_name := class_name bc; csv_lines := csv_lines bc;
     ignore := true |}.

(** The sample import, every block giving revision 11: both jobs and the
    cleaning of memcache are started, in this order. *)
Example import_csv_data_sample :
  import_csv_data nat sample_split_blocks sample_extract_relevant_data
    (fun bc => bc) string (fun bc => bc) (fun _ => [11]) class_name
    true true 4 "import.csv" "user@example.com" sample_real_import
    {| response_data := []; jobs := [] |}
  = ({| response_data := ["program"];
        jobs := [ComputeAttributes [11] 4;
                 IssueTrackerUpdate [11] "import.csv" "user@example.com";
                 MemcacheClean] |}, None).
Proof. by vm_compute. Qed.

Lemma import_csv_data_issuetracker_witness :
  IssueTrackerUpdate [11] "import.csv" "user@example.com"
    ∈ jobs {| response_data := @nil string; jobs := [] |}
  \/ (dry_run sample_real_import = false /\ true = true
      /\ (import_csv_data nat sample_split_blocks sample_extract_relevant_data
            (fun bc => bc) string (fun bc => bc) (fun _ => [11]) class_name
            true true 4 "import.csv" "user@example.com" sample_real_import
            {| response_data := []; jobs := [] |}).2 = None).
Proof.
  apply (import_csv_data_issuetracker nat sample_split_blocks
           sample_extract_relevant_data (fun bc => bc) string (fun bc => bc)
           (fun _ => [11]) class_name true true 4 "import.csv"
           "user@example.com" sample_real_import
           {| response_data := []; jobs := [] |}).
  vm_compute. repeat constructor.
Defined.

Lemma import_csv_data_all_ignored_witness :
  import_csv_data nat sample_split_blocks sample_extract_relevant_data
    sample_ignore string (fun bc => bc) (fun _ => [11]) class_name
    true false 4 "import.csv" "user@example.com" (sample_import " Program ")
    {| response_data := []; jobs := [] |}
  = ({| response_data :=
          [] ++ (class_name
                   <$> [sample_ignore
                          {| object_class := Some {| cls_name := "Program" |};
                             rows := [["P-1"; "First"]; ["P-2"; "Second"]];
                             raw_headers := ["Code*"; "Title*"];
                             offset := 0;
                             class_name := "program";
                             csv_lines := [3; 4];
                             ignore := false |}]);
        jobs := [] ++ [] ++ [] |}, None).
Proof.
  apply (import_csv_data_all_ignored nat sample_split_blocks
           sample_extract_relevant_data sample_ignore string (fun bc => bc)
           (fun _ => [11]) class_name true false 4 "import.csv"
           "user@example.com" (sample_import " Program ")
           {| response_data := []; jobs := [] |}).
  - by vm_compute.
  - by repeat constructor.
Defined.

End ImportRun.

(** ** The REST client: sequences of calls *)

Module ApiClientMore.
Import ApiClient.

Section Calls.

Variables Json Headers Response User HttpSession : Type.
Variable urljoin : string -> string -> string.
Variable app_url : string.
Variable current_user : User.
Variable get_session : User -> HttpSession.
Variable respond :
  list (Request Json Headers HttpSession)
  -> Request Json Headers HttpSession -> Response.

(** A call of one of the three functions of the client. *)
Inductive Call : Type :=
  | SendGet (url : string)
  | SendPost (url : string) (json_body : Json)
  | SendPut (url : string) (json_body : Json) (headers : Headers).

Definition do_call (call : Call) (w : World Json Headers HttpSession)
    : Response * World Json Headers HttpSession :=
  match call with
  | SendGet url =>
      send_get Json Headers Response User HttpSession urljoin app_url
        current_user get_session respond url w
  | SendPost url json_body =>
      send_post Json Headers Response User HttpSession urljoin app_url
        current_user get_session respond url json_body w
  | SendPut url json_body headers =>
      send_put Json Headers Response User HttpSession urljoin app_url
        current_user get_session respond url json_body headers w
  end.

(** The calls one after the other: the responses and the world after. *)
Fixpoint do_calls (calls : list Call) (w : World Json Headers HttpSession)
    : list Response * World Json Headers HttpSession :=
  match calls with
  | [] => ([], w)
  | call :: calls' =>
      let '(response, w) := do_call call w in
      let '(responses, w) := do_calls calls' w in
      (response :: responses, w)
  end.

(** The request a call sends. *)
Definition request_of (call : Call) : Request Json Headers HttpSession :=
  match call with
  | SendGet url =>
      {| req_session := get_session current_user; req_method := GET;
         req_url := urljoin app_url url;
         req_json := None; req_headers := None |}
  | SendPost url json_body =>
      {| req_session := get_session current_user; req_method := POST;
         req_url := urljoin app_url url;
         req_json := Some json_body; req_headers := None |}
  | SendPut url json_body headers =>
      {| req_session := get_session current_user; req_method := PUT;
         req_url := urljoin app_url url;
         req_json := Some json_body; req_headers := Some headers |}
  end.

(** X19: a sequence of calls of [send_get], [send_post] and [send_put]
    sends one request per call, in the order of the calls and after the
    requests sent before, all on the session of the current user; and the
    response of the i-th call is the server's answer to its request, given
    the requests before it. *)
Theorem do_calls_spec (calls : list Call) (w : World Json Headers HttpSession) :
  (do_calls calls w).2 = w ++ (request_of <$> calls)
  /\ length (do_calls calls w).1 = length calls
  /\ Forall (fun r => req_session _ _ _ r = get_session current_user)
            (request_of <$> calls)
  /\ forall (i : nat) (call : Call),
       calls !! i = Some call ->
       (do_calls calls w).1 !! i
       = Some (respond (w ++ (request_of <$> take i calls)) (request_of call)).
Proof.
  revert w. induction calls as [|call calls IH]; intros w.
  - simpl. rewrite app_nil_r. repeat split; [constructor | done].
  - simpl do_calls.
    assert (do_call call w = (respond w (request_of call), w ++ [request_of call]))
      as -> by (by destruct call).
    destruct (IH (w ++ [request_of call])) as (Hw & Hlen & Hall & Hresp).
    destruct (do_calls calls (w ++ [request_of call])) as [responses w'].
    simpl in *. split; [by rewrite Hw, <- app_assoc |].
    split; [by rewrite Hlen |]. split.
    + constructor; [by destruct call | done].
    + intros [|i] c Hc; simpl in *.
      * injection Hc as ->. by rewrite app_nil_r.
      * rewrite (Hresp i c Hc). by rewrite <- app_assoc.
Qed.

End Calls.

End ApiClientMore.

(** ** The labels migration: errors *)

Module MigrationMore.
Import Py Migration MigrationFacts.

Lemma upgrade_exists (s : gmap string Table) :
  is_Some (s !! "labels") -> upgrade s = Raise OperationalError.
Proof.
  intros [t Ht]. unfold upgrade, create_table, TABLE_NAME. by rewrite Ht.
Qed.

(** X18: [upgrade] raises where a table 'labels' exists and [downgrade]
    where none does, so neither runs twice in a row; and [downgrade]
    followed by [upgrade] leaves the labels table as [upgrade] defines it,
    whatever it was before, with every other table as it was. *)
Theorem upgrade_downgrade_errors (s : gmap string Table) :
  (is_Some (s !! "labels") -> upgrade s = Raise OperationalError)
  /\ (s !! "labels" = None -> downgrade s = Raise OperationalError)
  /\ (upgrade s ≫= upgrade) = Raise OperationalError
  /\ (downgrade s ≫= downgrade) = Raise OperationalError
  /\ (is_Some (s !! "labels") ->
      (downgrade s ≫= upgrade) = Ok (<["labels" := labels_table]> s)).
Proof.
  split; [apply upgrade_exists |].
  split; [intros Hnone; unfold downgrade, drop_table, TABLE_NAME; by rewrite Hnone |].
  split; [| split].
  - destruct (s !! "labels") as [t|] eqn:Hl.
    + rewrite upgrade_exists; [done | by rewrite Hl].
    + rewrite upgrade_creates_labels by done. simpl.
      apply upgrade_exists. rewrite lookup_insert_eq. eauto.
  - unfold downgrade, drop_table, TABLE_NAME.
    destruct (s !! "labels") as [t|] eqn:Hl; [| done].
    simpl. by rewrite lookup_delete_eq.
  - intros [t Ht]. unfold downgrade, drop_table, TABLE_NAME. rewrite Ht. simpl.
    rewrite upgrade_creates_labels by apply lookup_delete_eq.
    by rewrite insert_delete_eq.
Qed.

End MigrationMore.
